(** * Patched-conic Earth--Moon transfer: model of [patched_conic.py]

    The Python module computes a planar patched-conic approximation of an
    Earth--Moon transfer ([PatchedConic]), rebuilds such a state from a
    perturbed design point ([init_patched_conic]) and restores the perilune
    constraint by a damped Newton iteration on the departure speed
    ([SGRA.optimize_v0]).

    Numbers are IEEE binary64 values, as Python floats and numpy float64
    scalars are: they are modelled by Rocq's primitive floats, whose
    [+ - * / sqrt abs] and comparisons are the IEEE operations.  Every
    number is taken to be a numpy scalar, in numpy's default error state:
    arithmetic does not trap, a division by zero or an inverse function
    outside its domain gives an infinity or a NaN (and a warning), never an
    exception.  (Between two plain Python floats a zero divisor would raise
    [ZeroDivisionError] instead; the only divisor that is certainly one is
    [rf] in [mu / rf], when the caller passes the final radius [0.0].)  The
    transcendental functions of numpy
    ([sin], [cos], [tan], [arccos], [arcsin], [arctan] and the power
    operator) are not part of the repository: the model takes them as a
    parameter [Libm].  The class [Orbit] (module [orbit]) is not among the
    sources either: its constructor and its method [at] are a parameter
    [Orbit.Ops], and an orbit object is the record of the attributes that
    [patched_conic.py] reads.

    [init_patched_conic] calls [pdb.set_trace()] before it raises its own
    error.  What the debugger session does is not in the code: it is a
    parameter of the model, one session for every factory call that enters
    the debugger.  A session that is continued lets the [raise] run; a
    session that is quit, as every session is when there is no terminal,
    ends the call with [bdb.BdbQuit], which no [except] of the module
    catches.

    The plotting method with its helper [rotate_2d], and [optimize_deltav],
    which reads its local variable [x] before assigning it and so cannot
    run, are not modelled. *)

From Stdlib Require Import Floats ZArith List Bool String Lia Sorted.
Import ListNotations.

#[local] Set Warnings "-inexact-float".
#[local] Open Scope float_scope.

(** ** Python results: a value or a raised exception *)

Inductive exn : Type :=
| ValueError (msg : string)
| BdbQuit.          (* [bdb.BdbQuit], raised when a debugger session is quit *)

(** What happens at [pdb.set_trace()].  The debugger stops in the calling
    function and waits for a command: the session is either continued, and
    the program goes on from where it stopped, or quit (the command [q], or
    the end of the input when there is no terminal), and [bdb.BdbQuit] is
    raised there.  A session that changes the variables of the program or
    the line it goes on from is not modelled. *)
Inductive session : Type :=
| Continue
| Quit.

Inductive result (A : Type) : Type :=
| Ok (a : A)
| Raise (e : exn).
Arguments Ok {A} a.
Arguments Raise {A} e.

(** ** numpy on scalars *)

Module Np.

(** The functions numpy takes from the C library. *)
Record Libm : Type := mkLibm {
  sin : float -> float;
  cos : float -> float;
  tan : float -> float;
  arccos : float -> float;
  arcsin : float -> float;
  arctan : float -> float;
  pow : float -> float -> float   (* the operator [**] *)
}.

Definition isnan (x : float) : bool := is_nan x.

(** [np.maximum] and [np.minimum] on scalars: a NaN first argument is
    returned as it is, otherwise the C comparison decides. *)
Definition maximum (a b : float) : float :=
  if is_nan a then a else if b <? a then a else b.

Definition minimum (a b : float) : float :=
  if is_nan a then a else if a <? b then a else b.

(** [np.clip(x, lo, hi)] is [minimum(maximum(x, lo), hi)]. *)
Definition clip (x lo hi : float) : float := minimum (maximum x lo) hi.

(** Product of a 1x2 row by a 2x1 column, [a.T.dot(b)[0,0]]: the two
    products are rounded and then added. *)
Definition dot2 (a b : float * float) : float :=
  fst a * fst b + snd a * snd b.

End Np.

(** ** Orbit objects *)

Module Orbit.

(** The attributes of an [Orbit] that [patched_conic.py] reads. *)
Record t : Type := mk {
  mu : float;
  r : float;
  v : float;
  phi : float;
  e : float;
  a : float;
  h : float;
  cos_E : float;
  cos_nu : float
}.

(** The branch argument of [Orbit.at]. *)
Inductive sign : Type := Plus | Minus.

(** The constructor [Orbit(mu, r, v, phi)] and the method
    [orbit.at(r, sign=...)]. *)
Record Ops : Type := mkOps {
  init : float -> float -> float -> float -> t;
  at_ : t -> float -> sign -> t
}.

End Orbit.

(** ** The class [PatchedConic] *)

Module PatchedConic.

(** The attributes [__init__] sets before it calls [compute_gradients]. *)
Record geometry : Type := mkGeometry {
  depart : Orbit.t;
  arrive : Orbit.t;
  lam1 : float;
  rf : float;
  r : float;
  v : float;
  phi : float;
  eps : float;
  Q : float;
  vf : float;
  gam0 : float;
  E0 : float;
  nu0 : float;
  t0 : float;
  gam1 : float;
  E1 : float;
  nu1 : float;
  t1 : float;
  ef : float;
  af : float;
  rpl : float;
  vpl : float
}.

(** The attributes [compute_gradients] adds.  The 2x1 arrays [x], [df_dx],
    [dg_dx] and [dF_dx] are pairs (first component [lam1], second [v0]). *)
Record gradients : Type := mkGradients {
  dv1_dv0 : float;
  dphi1_dv0 : float;
  dv2_dv0 : float;
  dphi2_dv1 : float;
  dphi2_dphi1 : float;
  dphi2_dv0 : float;
  def_dv2 : float;
  def_dphi2 : float;
  def_dv0 : float;
  daf_dv0 : float;
  drpl_daf : float;
  drpl_def : float;
  drpl_dv0 : float;
  x : float * float;
  deltav1 : float;
  deltav2 : float;
  dv1_dlam1 : float;
  dphi1_dlam1 : float;
  dgam1_dlam1 : float;
  dv2_dlam1 : float;
  dphi2_dgam1 : float;
  dphi2_dlam1 : float;
  dQ2_dlam1 : float;
  daf_dQ2 : float;
  def_dQ2 : float;
  daf_dlam1 : float;
  def_dlam1 : float;
  drpl_dlam1 : float;
  dg_drpl : float;
  dg_dlam1 : float;
  dg_dv0 : float;
  ddeltav2_dvpl : float;
  dvpl_daf : float;
  dvpl_def : float;
  ddeltav2_def : float;
  ddeltav2_daf : float;
  dvpl_dlam1 : float;
  ddeltav2_dlam1 : float;
  df_dlam1 : float;
  ddeltav1_dv0 : float;
  dvpl_dv0 : float;
  ddeltav2_dv0 : float;
  df_dv0 : float;
  f : float;
  df_dx : float * float;
  dg_dx : float * float;
  g : float;
  lam : float;
  P : float;
  dF_dx : float * float;
  F : float;
  Q_opt : float
}.

(** A constructed [PatchedConic] object. *)
Record t : Type := mk {
  geo : geometry;
  grad : gradients
}.

(** Physical constants of the Earth--Moon system (class attributes). *)
Definition D : float := 384402000.0.
Definition OMEGA : float := 2.649e-3.
Definition V : float := OMEGA * D.
Definition R : float := 1737000.0.
Definition mu : float := 4.9048695e12.
Definition mu_earth : float := 3.986004418e14.

Section WithLibm.

Context (lm : Np.Libm).

#[local] Abbreviation sin := (Np.sin lm).
#[local] Abbreviation cos := (Np.cos lm).
#[local] Abbreviation tan := (Np.tan lm).
#[local] Abbreviation arccos := (Np.arccos lm).
#[local] Abbreviation arcsin := (Np.arcsin lm).
#[local] Abbreviation arctan := (Np.arctan lm).
#[local] Notation "a ** b" := (Np.pow lm a b) (at level 30, right associativity).

Definition r_soi : float := (mu / mu_earth) ** 0.4 * D.

(** The argument of the first arcsine before it is clipped. *)
Definition sg1_raw (arrive : Orbit.t) (lam1 : float) : float :=
  (r_soi / Orbit.r arrive) * sin lam1.

(** The argument of the second arcsine before it is clipped. *)
Definition seps2_raw (arrive : Orbit.t) (lam1 gam1 v2 : float) : float :=
  (V * cos lam1
   - Orbit.v arrive * cos (lam1 + gam1 - Orbit.phi arrive)) / (- v2).

(** [__init__] up to the call of [compute_gradients]. *)
Definition init_geometry (depart arrive : Orbit.t) (lam1 rf : float)
  : result geometry :=
  let cE0 := Orbit.cos_E depart in
  let cE1 := Orbit.cos_E arrive in
  let E0 := arccos cE0 in
  let E1 := arccos cE1 in
  let sE0 := sin E0 in
  let sE1 := sin E1 in
  let e := Orbit.e arrive in
  if Orbit.a arrive <=? 0 then
    Raise (ValueError "expected elliptical trajectory")
  else
    let tof := sqrt (Orbit.a arrive ** 3 / Orbit.mu arrive)
               * ((E1 - e * sE1) - (E0 - e * sE0)) in
    let cnu0 := Orbit.cos_nu depart in
    let cnu1 := Orbit.cos_nu arrive in
    let nu0 := arccos cnu0 in
    let nu1 := arccos cnu1 in
    let sg1 := Np.clip (sg1_raw arrive lam1) (-1.0) 1.0 in
    let gam1 := arcsin sg1 in
    let gam0 := nu1 - nu0 - gam1 - OMEGA * tof in
    let v1 := Orbit.v arrive in
    let v2 := sqrt (v1 ** 2 + V ** 2
                    - 2.0 * v1 * V * cos (Orbit.phi arrive - gam1)) in
    let phi1 := Orbit.phi arrive in
    let seps2 := Np.clip (seps2_raw arrive lam1 gam1 v2) (-1.0) 1.0 in
    let eps2 := arcsin seps2 in
    let tan_lam1_pm_phi2 :=
      (- v1) * sin (phi1 - gam1) / (V - v1 * cos (phi1 - gam1)) in
    let phi2 := arctan tan_lam1_pm_phi2 - lam1 in
    let r := r_soi in
    let v := v2 in
    let Q := r * v ** 2 / mu in
    let Q2 := Q in
    let ef := sqrt (1.0 + Q2 * (Q2 - 2.0) * cos phi2 ** 2) in
    let af := r / (2.0 - Q2) in
    Ok {| depart := depart;
          arrive := arrive;
          lam1 := lam1;
          rf := rf;
          r := r;
          v := v;
          phi := phi2;
          eps := eps2;
          Q := Q;
          vf := sqrt (mu / rf);
          gam0 := gam0;
          E0 := E0;
          nu0 := nu0;
          t0 := 0.0;
          gam1 := gam1;
          E1 := E1;
          nu1 := nu1;
          t1 := tof;
          ef := ef;
          af := af;
          rpl := af * (1.0 - ef);
          vpl := sqrt ((mu * (1.0 + ef)) / (af * (1.0 - ef))) |}.

(** [compute_gradients]: the sensitivities of every intermediate quantity
    to the design vector [(lam1, v0)], then the quantities of the
    sequential gradient-restoration algorithm. *)
Definition compute_gradients (orbit : geometry) : gradients :=
  let v0 := Orbit.v (depart orbit) in
  let v1 := Orbit.v (arrive orbit) in
  let v2 := v orbit in
  let vM := V in
  let Q2 := Q orbit in
  let phi1 := Orbit.phi (arrive orbit) in
  let gam1 := gam1 orbit in
  let phi2 := phi orbit in
  let cphi2 := cos phi2 in
  let sphi2 := sin phi2 in
  let sphi1 := sin phi1 in
  let tphi1 := tan phi1 in
  let cgam1 := cos gam1 in
  let cpmg1 := cos (phi1 - gam1) in
  let spmg1 := sin (phi1 - gam1) in
  let ef := ef orbit in
  let af := af orbit in
  let lam1 := lam1 orbit in
  (* Eq. 57--61 *)
  let dv1_dv0 := v0 / v1 in
  let dphi1_dv0 := (v0 / v1 - v1 / v0) / (v1 * tphi1) in
  let dv2_dv0 := ((v1 - vM * cpmg1) / v2) * dv1_dv0
                 + ((v1 * vM * spmg1) / v2) * dphi1_dv0 in
  let dphi2_dv1 := (- vM) * spmg1 / v2 ** 2 in
  let dphi2_dphi1 := (v1 ** 2 - v1 * vM * cpmg1) / v2 ** 2 in
  let dphi2_dv0 := dphi2_dv1 * dv1_dv0 + dphi2_dphi1 * dphi1_dv0 in
  (* Eq. 63--65 *)
  let def_dv2 := 2 * Q2 * (Q2 - 1.0) * cphi2 ** 2 / (ef * v2) in
  let def_dphi2 := (- Q2) * (Q2 - 2.0) * cphi2 * sphi2 / ef in
  let def_dv0 := def_dv2 * dv2_dv0 + def_dphi2 * dphi2_dv0 in
  let daf_dv0 := (2 * af ** 2 * v2 * dv2_dv0) / mu in
  let drpl_daf := 1.0 - ef in
  let drpl_def := af in
  let drpl_dv0 := drpl_daf * daf_dv0 - drpl_def * def_dv0 in
  (* shorthand for the SGRA part *)
  let mu_dep := Orbit.mu (depart orbit) in
  let mu_moon := mu in
  let r0 := Orbit.r (depart orbit) in
  let r1 := Orbit.r (arrive orbit) in
  let r2 := r orbit in
  let slam1 := sin lam1 in
  let clam1 := cos lam1 in
  let h := Orbit.h (arrive orbit) in
  let deltav1 := abs (v0 - sqrt (mu_dep / r0)) in
  let deltav2 := vpl orbit - vf orbit in
  (* Eq. 66--68 *)
  let dv1_dlam1 := (- mu_dep) * D * r2 * slam1 / (v1 * r1 ** 3) in
  let dphi1_dlam1 :=
    h * D * r2 * slam1 / (v1 * r1 ** 3 * sphi1)
    - h * D * r2 * mu_dep * slam1 / (v1 ** 3 * r1 ** 4 * sphi1) in
  let dgam1_dlam1 :=
    r2 * clam1 / (r1 * cgam1)
    - D * (r2 * slam1) ** 2 / (r1 ** 3 * cgam1) in
  (* Eq. 69, 71, 73 *)
  let dv2_dlam1 := ((v1 - vM * cpmg1) * dv1_dlam1
                    + (v1 * vM * spmg1) * dphi1_dlam1
                    - (v1 * vM * spmg1) * dgam1_dlam1) / v2 in
  let dphi2_dgam1 := (vM * v1 * cpmg1 - v1 ** 2) / v2 ** 2 in
  let dphi2_dlam1 := dphi2_dphi1 * dphi1_dlam1 + dphi2_dgam1 * dgam1_dlam1
                     + dphi2_dv1 * dv1_dlam1 - 1.0 in
  (* Eq. 74--80 *)
  let dQ2_dlam1 := 2 * r2 * v2 * dv2_dlam1 / mu_moon in
  let daf_dQ2 := af / (2.0 - Q2) in
  let def_dQ2 := (Q2 - 1.0) * cphi2 ** 2 / ef in
  let daf_dlam1 := daf_dQ2 * dQ2_dlam1 in
  let def_dlam1 := def_dQ2 * dQ2_dlam1 + def_dphi2 * dphi2_dlam1 in
  let drpl_dlam1 := (1.0 - ef) * daf_dlam1 - af * def_dlam1 in
  let dg_drpl := -1.0 in
  let dg_dlam1 := dg_drpl * drpl_dlam1 in
  let dg_dv0 := - drpl_dv0 in
  let ddeltav2_dvpl := 1.0 in
  let dvpl_daf :=
    0.5 * sqrt ((mu_moon * (1.0 + ef)) / (af ** 3 * (1.0 - ef))) in
  let dvpl_def :=
    - sqrt (mu_moon / ((1.0 + ef) * af * (1.0 - ef) ** 3)) in
  let ddeltav2_def := ddeltav2_dvpl * dvpl_def in
  let ddeltav2_daf := ddeltav2_dvpl * dvpl_daf in
  let dvpl_dlam1 := dvpl_daf * daf_dlam1 + dvpl_def * def_dlam1 in
  let ddeltav2_dlam1 := ddeltav2_dvpl * dvpl_dlam1 in
  let df_dlam1 := ddeltav2_dlam1 in
  let ddeltav1_dv0 := 1.0 in
  let dvpl_dv0 := dvpl_def * def_dv0 + dvpl_daf * daf_dv0 in
  let ddeltav2_dv0 := ddeltav2_dvpl * dvpl_dv0 in
  let df_dv0 := ddeltav1_dv0 + ddeltav2_dv0 in
  let f := deltav1 + deltav2 in
  let df_dx := (df_dlam1, df_dv0) in
  let dg_dx := (dg_dlam1, dg_dv0) in
  let g := rf orbit - rpl orbit in
  (* SGRA computations *)
  let dgdx := dg_dx in
  let dfdx := df_dx in
  let P0 := 1.0 / Np.dot2 dgdx dgdx in
  let lam := - (P0 * Np.dot2 dgdx dfdx) in
  let dF_dx := (fst dfdx + fst dgdx * lam, snd dfdx + snd dgdx * lam) in
  let F := f + g * lam in
  let Fx := dF_dx in
  {| dv1_dv0 := dv1_dv0;
     dphi1_dv0 := dphi1_dv0;
     dv2_dv0 := dv2_dv0;
     dphi2_dv1 := dphi2_dv1;
     dphi2_dphi1 := dphi2_dphi1;
     dphi2_dv0 := dphi2_dv0;
     def_dv2 := def_dv2;
     def_dphi2 := def_dphi2;
     def_dv0 := def_dv0;
     daf_dv0 := daf_dv0;
     drpl_daf := drpl_daf;
     drpl_def := drpl_def;
     drpl_dv0 := drpl_dv0;
     x := (lam1, v0);
     deltav1 := deltav1;
     deltav2 := deltav2;
     dv1_dlam1 := dv1_dlam1;
     dphi1_dlam1 := dphi1_dlam1;
     dgam1_dlam1 := dgam1_dlam1;
     dv2_dlam1 := dv2_dlam1;
     dphi2_dgam1 := dphi2_dgam1;
     dphi2_dlam1 := dphi2_dlam1;
     dQ2_dlam1 := dQ2_dlam1;
     daf_dQ2 := daf_dQ2;
     def_dQ2 := def_dQ2;
     daf_dlam1 := daf_dlam1;
     def_dlam1 := def_dlam1;
     drpl_dlam1 := drpl_dlam1;
     dg_drpl := dg_drpl;
     dg_dlam1 := dg_dlam1;
     dg_dv0 := dg_dv0;
     ddeltav2_dvpl := ddeltav2_dvpl;
     dvpl_daf := dvpl_daf;
     dvpl_def := dvpl_def;
     ddeltav2_def := ddeltav2_def;
     ddeltav2_daf := ddeltav2_daf;
     dvpl_dlam1 := dvpl_dlam1;
     ddeltav2_dlam1 := ddeltav2_dlam1;
     df_dlam1 := df_dlam1;
     ddeltav1_dv0 := ddeltav1_dv0;
     dvpl_dv0 := dvpl_dv0;
     ddeltav2_dv0 := ddeltav2_dv0;
     df_dv0 := df_dv0;
     f := f;
     df_dx := df_dx;
     dg_dx := dg_dx;
     g := g;
     lam := lam;
     P := g ** 2;
     dF_dx := dF_dx;
     F := F;
     Q_opt := Np.dot2 Fx Fx |}.

(** The constructor [PatchedConic(depart, arrive, lam1, rf)]. *)
Definition init (depart arrive : Orbit.t) (lam1 rf : float) : result t :=
  match init_geometry depart arrive lam1 rf with
  | Ok self => Ok {| geo := self; grad := compute_gradients self |}
  | Raise e => Raise e
  end.

End WithLibm.

End PatchedConic.

Coercion PatchedConic.geo : PatchedConic.t >-> PatchedConic.geometry.
Coercion PatchedConic.grad : PatchedConic.t >-> PatchedConic.gradients.

(** ** The trajectory factory *)

(** The first argument of [init_patched_conic]: a [PatchedConic] object or
    the tuple [(r0, v0, phi0, lam1, rf)]. *)
Inductive solution : Type :=
| OfConic (s : PatchedConic.t)
| OfTuple (r0 v0 phi0 lam1 rf : float).

Section Factory.

Context (lm : Np.Libm) (orb : Orbit.Ops).

#[local] Abbreviation cos := (Np.cos lm).
#[local] Notation "a ** b" := (Np.pow lm a b) (at level 30, right associativity).

(** [pdb.set_trace()] followed by [raise e]: the debugger stops before
    the [raise]; continued, the [raise] is run; quit, [bdb.BdbQuit] is
    raised in its place. *)
Definition set_trace_then_raise {A : Type} (dbg : session) (e : exn)
  : result A :=
  match dbg with
  | Continue => Raise e
  | Quit => Raise BdbQuit
  end.

(** The tuple the factory works on. *)
Definition solution_tuple (solution_x : solution)
  : float * float * float * float * float :=
  match solution_x with
  | OfConic s =>
      (Orbit.r (PatchedConic.depart s), Orbit.v (PatchedConic.depart s),
       Orbit.phi (PatchedConic.depart s), PatchedConic.lam1 s,
       PatchedConic.rf s)
  | OfTuple r0 v0 phi0 lam1 rf => (r0, v0, phi0, lam1, rf)
  end.

(** Geocentric radius of the point where the sphere of influence is met. *)
Definition intercept_radius (lam1 : float) : float :=
  let D := PatchedConic.D in
  let r_soi := PatchedConic.r_soi lm in
  sqrt (D ** 2 + r_soi ** 2 - 2.0 * D * r_soi * cos lam1).

(** [init_patched_conic(solution_x, dx)]; [dx] is the 2x1 array
    [[dx[0,0]], [dx[1,0]]], here the pair of its two entries.  When the
    speed at the intercept is NaN the code enters the debugger before its
    [raise]; [dbg] is what the session entered by this call does, and it
    decides which exception leaves the call. *)
Definition init_patched_conic (dbg : session) (solution_x : solution)
  (dx : float * float) : result PatchedConic.t :=
  let '(r0, v0_, phi0, lam1_, rf) := solution_tuple solution_x in
  let v0 := v0_ + snd dx in
  let lam1 := lam1_ + fst dx in
  let r1 := intercept_radius lam1 in
  let depart := Orbit.init orb PatchedConic.mu_earth r0 v0 phi0 in
  let intercept := Orbit.at_ orb depart r1 Orbit.Plus in
  if Np.isnan (Orbit.v intercept) then
    set_trace_then_raise dbg (ValueError "expected radius is not reached")
  else
    PatchedConic.init lm depart intercept lam1 rf.

(** The default perturbation, [np.array([[0.0], [0.0]])]. *)
Definition dx_zero : float * float := (0.0, 0.0).

End Factory.

(** ** The restoration optimizer *)

Module SGRA.

(** The tolerances and the initial damping factor an [SGRA] object holds. *)
Record t : Type := mk {
  gtol : float;
  ftol : float;
  Qtol : float;
  alphatol : float;
  beta0 : float
}.

(** [SGRA()] with its default arguments. *)
Definition default : t :=
  {| gtol := 5e-8; ftol := 1e-15; Qtol := 2e-15; alphatol := 1e-6;
     beta0 := 1.0 |}.

(** [optimize_v0] is a generator.  Its run is given in full, as the trace
    of what it does until it ends; a consumer that stops early sees a
    prefix.  The printing under [verbose] is left out.

    What one turn of the loop of [optimize_v0] does, in order: it calls the
    factory (with the damping factor and the step it used, the base state
    and what the call gave), and it yields a state to the consumer. *)
Inductive event : Type :=
| Call (beta dv0 : float) (base : PatchedConic.t)
       (res : result PatchedConic.t)
| Yield (s : PatchedConic.t).

(** How the generator ends.  The first two are a plain return (the
    consumer sees the end of the sequence).  [optimize_v0] has no [raise]
    of its own and catches the [ValueError] of the factory; any other
    exception of the factory leaves the generator and reaches the
    consumer. *)
Inductive stop : Type :=
| Converged           (* the [break]: the tolerance is met *)
| Exhausted           (* the [for] ran [max_iterations] times *)
| Raised (e : exn).   (* an exception [except ValueError] does not catch *)

(** The state of the generator when it ends. *)
Record final : Type := mkFinal {
  how : stop;
  last : PatchedConic.t;
  last_beta : float
}.

Section WithKernel.

(** [pdb ii] is what the debugger session does that the factory enters,
    if it enters one, in the turn [ii] of the loop. *)
Context (lm : Np.Libm) (orb : Orbit.Ops) (pdb : nat -> session) (self : t).

(** The Newton step on the constraint, [-beta * (g / dg_dv0)]. *)
Definition newton_step (beta : float) (solution_x : PatchedConic.t)
  : float :=
  (- beta) * (PatchedConic.g solution_x / PatchedConic.dg_dv0 solution_x).

(** The body of the [for] loop, run for the [n] values of the loop
    variable from [ii] on, from the damping factor [beta] and the state
    [solution_x].  The [try] catches [ValueError] only: with any other
    exception of the factory the generator ends at once, after the call and
    without a further yield. *)
Fixpoint loop (n ii : nat) (beta : float) (solution_x : PatchedConic.t)
  : list event * final :=
  match n with
  | O => ([], mkFinal Exhausted solution_x beta)
  | S n' =>
      if abs (PatchedConic.g solution_x) <=? gtol self then
        ([], mkFinal Converged solution_x beta)
      else
        let dv0 := newton_step beta solution_x in
        let res := init_patched_conic lm orb (pdb ii) (OfConic solution_x)
                                      (0.0, dv0) in
        match res with
        | Ok solution_xt =>
            if abs (PatchedConic.g solution_xt)
               <? abs (PatchedConic.g solution_x) then
              let '(evs, fin) := loop n' (S ii) (beta0 self) solution_xt in
              (Call beta dv0 solution_x res :: Yield solution_xt :: evs,
               fin)
            else
              let '(evs, fin) := loop n' (S ii) (beta * 0.5) solution_x in
              (Call beta dv0 solution_x res :: evs, fin)
        | Raise (ValueError _) =>
            let '(evs, fin) := loop n' (S ii) (beta * 0.5) solution_x in
            (Call beta dv0 solution_x res :: evs, fin)
        | Raise e =>
            ([Call beta dv0 solution_x res],
             mkFinal (Raised e) solution_x beta)
        end
  end.

(** [optimize_v0(solution_x, max_iterations)]: [range(0, max_iterations)]
    has [max_iterations] elements, none when it is negative. *)
Definition optimize_v0 (solution_x : PatchedConic.t) (max_iterations : Z)
  : list event * final :=
  loop (Z.to_nat max_iterations) 0 (beta0 self) solution_x.

(** The states the generator yields, in order. *)
Fixpoint yields (evs : list event) : list PatchedConic.t :=
  match evs with
  | [] => []
  | Yield s :: evs' => s :: yields evs'
  | Call _ _ _ _ :: evs' => yields evs'
  end.

(** The factory calls the generator makes, in order. *)
Fixpoint calls (evs : list event) : list event :=
  match evs with
  | [] => []
  | Yield _ :: evs' => calls evs'
  | c :: evs' => c :: calls evs'
  end.

End WithKernel.

End SGRA.

(** ** The objective of the line search *)

Section LineSearch.

(** [dbg] is what the debugger session does that the factory enters, if
    it enters one. *)
Context (lm : Np.Libm) (orb : Orbit.Ops) (dbg : session).

(** [Psi(alpha, solution_x, p)]: the augmented objective, with the
    multiplier of [solution_x], of the state a step of length [alpha] along
    [-p] leads to.  [p] is a 2x1 array, here the pair of its entries, and
    [-p * alpha] is taken entry by entry.  [solution_x] is a [PatchedConic]
    (its attribute [lam] is read).  An exception of the factory leaves
    [Psi] as it is. *)
Definition Psi (alpha : float) (solution_x : PatchedConic.t)
           (p : float * float) : result float :=
  match init_patched_conic lm orb dbg (OfConic solution_x)
                           ((- fst p) * alpha, (- snd p) * alpha) with
  | Ok solution_y =>
      Ok (PatchedConic.f solution_y
          + PatchedConic.g solution_y * PatchedConic.lam solution_x)
  | Raise e => Raise e
  end.

End LineSearch.

(** ** A binary64 kernel to run the model

    The theorems below hold for every [Libm] and every [Orbit.Ops].  To
    evaluate the model on concrete inputs, this section gives one instance of
    each: elementary functions computed in binary64 by argument reduction and
    truncated series (they agree with the C library to about one unit in the
    last place on the arguments used here), and a two-body [Orbit]. *)

Module RefLibm.

Definition pi : float := 3.141592653589793.
Definition pio2_hi : float := 1.5707963267341256.
Definition pio2_lo : float := 6.077100506506192e-11.
Definition ln2_hi : float := 0.6931471803691238.
Definition ln2_lo : float := 1.9082149292705877e-10.
Definition magic : float := 6755399441055744.0.

(** Nearest integer, for arguments below [2^51] in magnitude. *)
Definition rint (x : float) : float := (x + magic) - magic.

(** [1 - z/((c+1)(c+2)) * (1 - z/((c+3)(c+4)) * ...)], [n] factors. *)
Fixpoint alt (n : nat) (c z : float) : float :=
  match n with
  | O => 1
  | S n' => 1 - z / ((c + 1) * (c + 2)) * alt n' (c + 2) z
  end.

Definition sin_poly (r : float) : float := r * alt 10 1 (r * r).
Definition cos_poly (r : float) : float := alt 10 0 (r * r).

(** [x = k * pi/2 + r] with [|r| <= pi/4]; the quadrant is [k mod 4],
    taken in [-2 .. 2]. *)
Definition reduce (x : float) : float * float :=
  let k := rint (x / (pi / 2)) in
  let r := (x - k * pio2_hi) - k * pio2_lo in
  let m := k - 4 * rint (k / 4) in
  (m, r).

Definition sin (x : float) : float :=
  let '(m, r) := reduce x in
  if m =? 0 then sin_poly r
  else if m =? 1 then cos_poly r
  else if m =? -1 then - cos_poly r
  else - sin_poly r.

Definition cos (x : float) : float :=
  let '(m, r) := reduce x in
  if m =? 0 then cos_poly r
  else if m =? 1 then - sin_poly r
  else if m =? -1 then sin_poly r
  else - cos_poly r.

Definition tan (x : float) : float := sin x / cos x.

(** [1/k - z/(k+2) + z^2/(k+4) - ...], [n + 1] terms. *)
Fixpoint odd_series (n : nat) (k z : float) : float :=
  match n with
  | O => 1 / k
  | S n' => 1 / k - z * odd_series n' (k + 2) z
  end.

Definition atan_small (t : float) : float := t * odd_series 26 1 (t * t).

Definition atan_unit (x : float) : float :=
  if 0.4142135623730951 <? x
  then pi / 4 + atan_small ((x - 1) / (x + 1))
  else atan_small x.

Definition atan_pos (x : float) : float :=
  if 1 <? x then pi / 2 - atan_unit (1 / x) else atan_unit x.

Definition arctan (x : float) : float :=
  if x <? 0 then - atan_pos (- x) else atan_pos x.

(** Outside [-1, 1] the square root is that of a negative number, and
    the result is NaN, as numpy's. *)
Definition arcsin (x : float) : float :=
  arctan (x / sqrt ((1 - x) * (1 + x))).

Definition arccos (x : float) : float :=
  2 * arctan (sqrt ((1 - x) / (1 + x))).

(** [1 + z/(c+1) * (1 + z/(c+2) * ...)], [n] factors. *)
Fixpoint exp_poly (n : nat) (c z : float) : float :=
  match n with
  | O => 1
  | S n' => 1 + z / (c + 1) * exp_poly n' (c + 1) z
  end.

Definition float_to_Z (k : float) : Z :=
  match Prim2SF k with
  | S754_finite s m e =>
      let a := Z.shiftl (Z.pos m) e in if s then (- a)%Z else a
  | _ => 0%Z
  end.

Definition Z_to_float (k : Z) : float :=
  let a := of_uint63 (Uint63.of_Z (Z.abs k)) in
  if (k <? 0)%Z then - a else a.

Definition exp (z : float) : float :=
  let k := rint (z / (ln2_hi + ln2_lo)) in
  let r := (z - k * ln2_hi) - k * ln2_lo in
  Z.ldexp (exp_poly 18 0 r) (float_to_Z k).

(** [1/k + z/(k+2) + z^2/(k+4) + ...], [n + 1] terms. *)
Fixpoint pos_series (n : nat) (k z : float) : float :=
  match n with
  | O => 1 / k
  | S n' => 1 / k + z * pos_series n' (k + 2) z
  end.

(** Natural logarithm of a positive number. *)
Definition log (x : float) : float :=
  if x <? 0 then nan
  else
    let '(m, e) := Z.frexp x in
    let '(m, e) :=
      if m <? 0.7071067811865476 then (2 * m, (e - 1)%Z) else (m, e) in
    let s := (m - 1) / (m + 1) in
    let k := Z_to_float e in
    (k * ln2_hi + 2 * s * pos_series 14 1 (s * s)) + k * ln2_lo.

(** The operator [**]: the small integer exponents of the program by
    multiplication, any other exponent through [exp] and [log]. *)
Definition pow (x y : float) : float :=
  if y =? 2 then x * x
  else if y =? 3 then x * x * x
  else if y =? 4 then (x * x) * (x * x)
  else exp (y * log x).

Definition libm : Np.Libm :=
  {| Np.sin := sin; Np.cos := cos; Np.tan := tan;
     Np.arccos := arccos; Np.arcsin := arcsin; Np.arctan := arctan;
     Np.pow := pow |}.

End RefLibm.

Module RefOrbit.

#[local] Abbreviation lm := RefLibm.libm.
#[local] Notation "a ** b" := (Np.pow lm a b) (at level 30, right associativity).

(** Modelled from the spec: the class [Orbit] of module [orbit] is not
    among the sources.  The spec describes it as a two-body state built
    from [(mu, r, v, phi)], consistent with the vis-viva relation, holding
    eccentricity, semimajor axis, anomalies and angular momentum, the
    cosines of the anomalies being within their domain.  This constructor
    follows the textbook relations: specific energy [v^2/2 - mu/r],
    [a = -mu / (2 energy)], [h = r v cos phi],
    [e = sqrt (1 + 2 energy h^2 / mu^2)], [cos nu = (h^2/(mu r) - 1) / e]
    and [cos E = (1 - r/a) / e]. *)
Definition init (mu r v phi : float) : Orbit.t :=
  let energy := v ** 2 / 2 - mu / r in
  let a := - mu / (2 * energy) in
  let h := r * v * Np.cos lm phi in
  let e := sqrt (1 + 2 * energy * h ** 2 / mu ** 2) in
  {| Orbit.mu := mu;
     Orbit.r := r;
     Orbit.v := v;
     Orbit.phi := phi;
     Orbit.e := e;
     Orbit.a := a;
     Orbit.h := h;
     Orbit.cos_E := Np.clip ((1 - r / a) / e) (-1) 1;
     Orbit.cos_nu := Np.clip ((h ** 2 / (mu * r) - 1) / e) (-1) 1 |}.

(** Modelled from the spec: [Orbit.circular(mu, r)], the circular orbit of
    radius [r], at the circular speed and with a zero flight-path angle. *)
Definition circular (mu r : float) : Orbit.t := init mu r (sqrt (mu / r)) 0.

(** Modelled from the spec: [at(r, sign)] is the state on the same conic
    at radius [r], on the branch [sign] of the true anomaly; when the
    radius is not attained on the conic the result is not finite.  The
    speed is that of the vis-viva relation and the flight-path angle that
    of the conserved angular momentum, [cos phi = h / (r v)]; when this
    cosine is not in [-1, 1] the radius is not attained and the speed of
    the result is NaN. *)
Definition at_ (o : Orbit.t) (r : float) (s : Orbit.sign) : Orbit.t :=
  let energy := Orbit.v o ** 2 / 2 - Orbit.mu o / Orbit.r o in
  let v := sqrt (2 * (energy + Orbit.mu o / r)) in
  let c := Orbit.h o / (r * v) in
  if (-1 <=? c) && (c <=? 1) then
    let phi := Np.arccos lm c in
    init (Orbit.mu o) r v (match s with
                           | Orbit.Plus => phi
                           | Orbit.Minus => - phi
                           end)
  else init (Orbit.mu o) r nan nan.

Definition ops : Orbit.Ops := {| Orbit.init := init; Orbit.at_ := at_ |}.

End RefOrbit.

(** ** Concrete inputs

    The inputs of the script at the end of [patched_conic.py] and variants
    of them, evaluated with the kernel above. *)

Module Scenario.

Definition lm : Np.Libm := RefLibm.libm.
Definition orb : Orbit.Ops := RefOrbit.ops.

(** [Orbit.circular(PatchedConic.mu_earth, 6371400.0 + 185000.0)]. *)
Definition leo : Orbit.t :=
  RefOrbit.circular PatchedConic.mu_earth (6371400.0 + 185000.0).

(** [(leo.r, leo.v + dv, 0.0, np.pi/2.0, rf)]. *)
Definition tuple (dv rf : float) : solution :=
  OfTuple (Orbit.r leo) (Orbit.v leo + dv) 0.0 (RefLibm.pi / 2.0) rf.

(** The tuple of the script: a speed increment of 3225 m/s and a final
    radius of 1937 km. *)
Definition base : solution := tuple 3225.0 1937000.0.

(** The same with a final radius of one metre. *)
Definition base_low : solution := tuple 3225.0 1.0.

(** The same with the final radius equal to the perilune radius the
    transfer has, so that the constraint is met exactly. *)
Definition base_met : solution := tuple 3225.0 86433.75533217148.

(** A speed increment of 4000 m/s: more than the escape speed. *)
Definition base_fast : solution := tuple 4000.0 1937000.0.

(** The departure orbit of [base] and its state where it meets the sphere
    of influence. *)
Definition depart : Orbit.t :=
  RefOrbit.init PatchedConic.mu_earth (Orbit.r leo) (Orbit.v leo + 3225.0)
                0.0.

Definition intercept : Orbit.t :=
  RefOrbit.at_ depart (intercept_radius lm (RefLibm.pi / 2.0)) Orbit.Plus.

(** The state of the same conic at a radius of 300000 km, and at a radius
    of 60000 km, which is less than the radius of the sphere of
    influence. *)
Definition arrive_other : Orbit.t := RefOrbit.at_ depart 3.0e8 Orbit.Plus.
Definition arrive_near : Orbit.t := RefOrbit.at_ depart 6.0e7 Orbit.Plus.

(** [depart] with the cosine of its eccentric anomaly one unit in the last
    place above 1. *)
Definition depart_rounded : Orbit.t :=
  {| Orbit.mu := Orbit.mu depart;
     Orbit.r := Orbit.r depart;
     Orbit.v := Orbit.v depart;
     Orbit.phi := Orbit.phi depart;
     Orbit.e := Orbit.e depart;
     Orbit.a := Orbit.a depart;
     Orbit.h := Orbit.h depart;
     Orbit.cos_E := 1.0000000000000002;
     Orbit.cos_nu := Orbit.cos_nu depart |}.

(** A run without a terminal, where every debugger session ends at the end
    of the input, and a run in which every session is continued. *)
Definition unattended : nat -> session := fun _ => Quit.
Definition attended : nat -> session := fun _ => Continue.

End Scenario.

(** ** Notions the statements use *)

(** The same number: the same float, the two zeros being one number. *)
Definition same_number (x y : float) : Prop := x = y \/ (x =? y) = true.

(** The damping factor after [k] halvings, as [beta *= 0.5] computes it. *)
Fixpoint halved (k : nat) (beta : float) : float :=
  match k with
  | O => beta
  | S k' => halved k' beta * 0.5
  end.

(** [x] lies in [[-1, 1]]. *)
Definition in_unit_range (x : float) : Prop :=
  (-1 <=? x) = true /\ (x <=? 1) = true.

Section Restoration.

Context (lm : Np.Libm) (orb : Orbit.Ops) (self : SGRA.t).

(** [y] is an accepted trial from [prev]: the factory built it from [prev]
    with the perturbation [[0.0], [dv0]], where [dv0] is the Newton step
    for the damping factor halved [k] times, whatever a debugger session
    would do, and its constraint is strictly smaller in magnitude. *)
Definition restored_from (prev y : PatchedConic.t) : Prop :=
  (abs (PatchedConic.g y) <? abs (PatchedConic.g prev)) = true /\
  exists k : nat,
    forall dbg : session,
      init_patched_conic lm orb dbg (OfConic prev)
        (0.0, SGRA.newton_step (halved k (SGRA.beta0 self)) prev) = Ok y.

(** Every state of the list is an accepted trial from the one before it,
    the first from [prev]. *)
Fixpoint restoration_chain (prev : PatchedConic.t)
         (ys : list PatchedConic.t) : Prop :=
  match ys with
  | [] => True
  | y :: ys' => restored_from prev y /\ restoration_chain y ys'
  end.

End Restoration.

(** ** The relations of the specification *)

Section Relations.

Context (lm : Np.Libm).

#[local] Abbreviation cos := (Np.cos lm).
#[local] Notation "a ** b" := (Np.pow lm a b) (at level 30, right associativity).

(** The conic relations of the lunar hyperbola: energy ratio, eccentricity,
    semimajor axis, perilune radius and perilune speed. *)
Definition lunar_hyperbola (s : PatchedConic.geometry) : Prop :=
  let r_soi := PatchedConic.r_soi lm in
  let mu_moon := PatchedConic.mu in
  let v2 := PatchedConic.v s in
  let phi2 := PatchedConic.phi s in
  let Q := PatchedConic.Q s in
  let ef := PatchedConic.ef s in
  let af := PatchedConic.af s in
  Q = r_soi * v2 ** 2 / mu_moon /\
  ef = sqrt (1 + Q * (Q - 2) * cos phi2 ** 2) /\
  af = r_soi / (2 - Q) /\
  PatchedConic.rpl s = af * (1 - ef) /\
  PatchedConic.vpl s = sqrt (mu_moon * (1 + ef) / (af * (1 - ef))).

(** The selenocentric speed at the sphere of influence closes the triangle
    of the arrival velocity and the velocity of the Moon. *)
Definition velocity_triangle (s : PatchedConic.geometry) : Prop :=
  let v1 := Orbit.v (PatchedConic.arrive s) in
  let phi1 := Orbit.phi (PatchedConic.arrive s) in
  let V := PatchedConic.V in
  PatchedConic.v s
  = sqrt (v1 ** 2 + V ** 2 - 2 * v1 * V * cos (phi1 - PatchedConic.gam1 s)).

(** The outputs of the sensitivity computation: Lagrange multiplier,
    augmented gradient, augmented objective and optimality residual. *)
Definition sgra_outputs (s : PatchedConic.gradients) : Prop :=
  let dg := PatchedConic.dg_dx s in
  let df := PatchedConic.df_dx s in
  let lam := PatchedConic.lam s in
  let dF := PatchedConic.dF_dx s in
  lam = - (1 / Np.dot2 dg dg * Np.dot2 dg df) /\
  dF = (fst df + lam * fst dg, snd df + lam * snd dg) /\
  PatchedConic.F s = PatchedConic.f s + lam * PatchedConic.g s /\
  PatchedConic.Q_opt s = Np.dot2 dF dF.

(** The cost as a sum of two magnitudes, the departure burn measured
    against the circular speed about the Earth, and the constraint. *)
Definition cost_of_magnitudes (s : PatchedConic.t) : Prop :=
  let v0 := Orbit.v (PatchedConic.depart s) in
  let r0 := Orbit.r (PatchedConic.depart s) in
  PatchedConic.f s
  = abs (v0 - sqrt (PatchedConic.mu_earth / r0))
    + abs (PatchedConic.vpl s - PatchedConic.vf s) /\
  PatchedConic.g s = PatchedConic.rf s - PatchedConic.rpl s.

(** The cost as the code has it: the magnitude of the departure burn,
    measured against the circular speed for the gravitational parameter of
    the departure orbit, plus the signed difference of the perilune speed
    and the circular speed at the final radius. *)
Definition cost_of_code (s : PatchedConic.t) : Prop :=
  let v0 := Orbit.v (PatchedConic.depart s) in
  let r0 := Orbit.r (PatchedConic.depart s) in
  let mu0 := Orbit.mu (PatchedConic.depart s) in
  PatchedConic.f s
  = abs (v0 - sqrt (mu0 / r0))
    + (PatchedConic.vpl s - PatchedConic.vf s) /\
  PatchedConic.vf s = sqrt (PatchedConic.mu / PatchedConic.rf s) /\
  PatchedConic.g s = PatchedConic.rf s - PatchedConic.rpl s.

(** The time of flight between departure and arrival at the sphere of
    influence, by Kepler's equation. *)
Definition time_of_flight (s : PatchedConic.geometry) : Prop :=
  let arrive := PatchedConic.arrive s in
  let e := Orbit.e arrive in
  let E0 := PatchedConic.E0 s in
  let E1 := PatchedConic.E1 s in
  PatchedConic.t1 s
  = sqrt (Orbit.a arrive ** 3 / Orbit.mu arrive)
    * ((E1 - e * Np.sin lm E1) - (E0 - e * Np.sin lm E0)).

(** How [__init__] calls the inverse trigonometric functions: each
    arcsine on its argument clipped to [[-1, 1]], which is in that range
    unless the argument is NaN; each arccosine on the cosine the orbit
    object gives, as it is. *)
Definition inverse_trig_calls (depart arrive : Orbit.t) (lam1 : float)
           (s : PatchedConic.geometry) : Prop :=
  let raw1 := PatchedConic.sg1_raw lm arrive lam1 in
  let raw2 := PatchedConic.seps2_raw lm arrive lam1 (PatchedConic.gam1 s)
                                     (PatchedConic.v s) in
  PatchedConic.gam1 s = Np.arcsin lm (Np.clip raw1 (-1) 1) /\
  PatchedConic.eps s = Np.arcsin lm (Np.clip raw2 (-1) 1) /\
  (is_nan raw1 = false -> in_unit_range (Np.clip raw1 (-1) 1)) /\
  (is_nan raw2 = false -> in_unit_range (Np.clip raw2 (-1) 1)) /\
  PatchedConic.E0 s = Np.arccos lm (Orbit.cos_E depart) /\
  PatchedConic.E1 s = Np.arccos lm (Orbit.cos_E arrive) /\
  PatchedConic.nu0 s = Np.arccos lm (Orbit.cos_nu depart) /\
  PatchedConic.nu1 s = Np.arccos lm (Orbit.cos_nu arrive).

(** What it would be to clamp the argument of every arccosine as well. *)
Definition arccosines_clamped (depart arrive : Orbit.t)
           (s : PatchedConic.geometry) : Prop :=
  PatchedConic.E0 s = Np.arccos lm (Np.clip (Orbit.cos_E depart) (-1) 1) /\
  PatchedConic.E1 s = Np.arccos lm (Np.clip (Orbit.cos_E arrive) (-1) 1) /\
  PatchedConic.nu0 s = Np.arccos lm (Np.clip (Orbit.cos_nu depart) (-1) 1) /\
  PatchedConic.nu1 s = Np.arccos lm (Np.clip (Orbit.cos_nu arrive) (-1) 1).

End Relations.

(** The values the factory computes on its way: the perturbed phase angle,
    the new departure orbit and its state at the intercept radius. *)
Section FactoryValues.

Context (lm : Np.Libm) (orb : Orbit.Ops).

Definition factory_lam1 (solution_x : solution) (dx : float * float) : float :=
  let '(_, _, _, lam1_, _) := solution_tuple solution_x in lam1_ + fst dx.

Definition factory_rf (solution_x : solution) : float :=
  let '(_, _, _, _, rf) := solution_tuple solution_x in rf.

Definition factory_depart (solution_x : solution) (dx : float * float)
  : Orbit.t :=
  let '(r0, v0_, phi0, _, _) := solution_tuple solution_x in
  Orbit.init orb PatchedConic.mu_earth r0 (v0_ + snd dx) phi0.

Definition factory_intercept (solution_x : solution) (dx : float * float)
  : Orbit.t :=
  Orbit.at_ orb (factory_depart solution_x dx)
            (intercept_radius lm (factory_lam1 solution_x dx)) Orbit.Plus.

(** The constructor of [orb] keeps the radius, the speed and the flight-path
    angle it is given. *)
Definition stores_arguments : Prop :=
  forall mu r v phi : float,
    Orbit.r (Orbit.init orb mu r v phi) = r
    /\ Orbit.v (Orbit.init orb mu r v phi) = v
    /\ Orbit.phi (Orbit.init orb mu r v phi) = phi.

(** The constructor of [orb] keeps the speed it is given. *)
Definition stores_speed : Prop :=
  forall mu r v phi : float, Orbit.v (Orbit.init orb mu r v phi) = v.

End FactoryValues.

(** Every debugger session entered in a run is continued. *)
Definition all_continued (pdb : nat -> session) : Prop :=
  forall ii : nat, pdb ii = Continue.

(** What the loop holds when it ends from a state it never left, after
    starting with the damping factor [beta] in the turn [ii]. *)
Definition stuck_end (pdb : nat -> session) (n ii : nat) (beta : float)
           (evs : list SGRA.event) (fin : SGRA.final) : Prop :=
  match SGRA.how fin with
  | SGRA.Converged => False
  | SGRA.Exhausted =>
      List.length (SGRA.calls evs) = n
      /\ SGRA.last_beta fin = halved n beta
  | SGRA.Raised e =>
      e = BdbQuit
      /\ (0 < List.length (SGRA.calls evs))%nat
      /\ pdb (ii + List.length (SGRA.calls evs) - 1)%nat = Quit
      /\ SGRA.last_beta fin
         = halved (List.length (SGRA.calls evs) - 1) beta
  end.

(** The message of the precondition error and that of the factory. *)
Definition not_elliptical : exn := ValueError "expected elliptical trajectory".
Definition not_reached : exn := ValueError "expected radius is not reached".

(** ** Further inputs and notions *)

Module Edge.

(** The state of the departure orbit of the script at a radius of ten
    million km, which the orbit does not reach. *)
Definition arrive_far : Orbit.t :=
  RefOrbit.at_ Scenario.depart 1.0e10 Orbit.Plus.

(** [SGRA(gtol = 1849000.0)] and [SGRA(gtol = -1.0)]. *)
Definition loose : SGRA.t :=
  {| SGRA.gtol := 1849000.0; SGRA.ftol := 1e-15; SGRA.Qtol := 2e-15;
     SGRA.alphatol := 1e-6; SGRA.beta0 := 1.0 |}.

Definition negative : SGRA.t :=
  {| SGRA.gtol := -1.0; SGRA.ftol := 1e-15; SGRA.Qtol := 2e-15;
     SGRA.alphatol := 1e-6; SGRA.beta0 := 1.0 |}.

End Edge.

(** The constructor of [orb] keeps the gravitational parameter it is
    given. *)
Definition stores_mu (orb : Orbit.Ops) : Prop :=
  forall mu r v phi : float, Orbit.mu (Orbit.init orb mu r v phi) = mu.

(** The design point of [solution_x] moved by [dx], as a tuple. *)
Definition moved (solution_x : solution) (dx : float * float) : solution :=
  let '(r0, v0, phi0, lam1, rf) := solution_tuple solution_x in
  OfTuple r0 (v0 + snd dx) phi0 (lam1 + fst dx) rf.

(** [b] has a constraint strictly smaller in magnitude than [a]. *)
Definition improves (a b : PatchedConic.t) : Prop :=
  (abs (PatchedConic.g b) <? abs (PatchedConic.g a)) = true.

(** What holds of a state the factory returns: the speed of its arrival
    orbit is a number, the guard of the constructor did not fire, the
    arrival orbit is the state of the departure orbit where it meets the
    sphere of influence for the phase angle of the state, and the
    sensitivities are those of its geometry. *)
Definition factory_built (lm : Np.Libm) (orb : Orbit.Ops)
           (s : PatchedConic.t) : Prop :=
  is_nan (Orbit.v (PatchedConic.arrive s)) = false
  /\ (Orbit.a (PatchedConic.arrive s) <=? 0) = false
  /\ PatchedConic.arrive s
     = Orbit.at_ orb (PatchedConic.depart s)
                 (intercept_radius lm (PatchedConic.lam1 s)) Orbit.Plus
  /\ PatchedConic.grad s = PatchedConic.compute_gradients lm s.

(** What clipping to [[-1, 1]] before an arcsine comes to, for the unclipped
    argument [raw] and the angle [angle] computed: inside the range the
    clip changes nothing, outside it the arcsine is that of the nearer
    bound, and a NaN goes through. *)
Definition clamp_cases (lm : Np.Libm) (raw angle : float) : Prop :=
  (in_unit_range raw -> angle = Np.arcsin lm raw)
  /\ ((1 <? raw) = true -> angle = Np.arcsin lm 1)
  /\ ((raw <? -1) = true -> angle = Np.arcsin lm (-1))
  /\ (is_nan raw = true -> angle = Np.arcsin lm raw).

(** A float of the specification that is not below zero: not a negative
    number and not the negative infinity (a zero of either sign and NaN
    are allowed). *)
Definition SFnonneg (x : spec_float) : Prop :=
  match x with
  | S754_infinity true => False
  | S754_finite true _ _ => False
  | _ => True
  end.

(** The quantities of a state that are magnitudes: the selenocentric speed,
    the circular speed at the final radius, the eccentricity of the lunar
    hyperbola, the perilune speed, the departure burn and the optimality
    residual.  None of them compares below zero. *)
Definition magnitudes_not_negative (s : PatchedConic.t) : Prop :=
  (PatchedConic.v s <? 0) = false
  /\ (PatchedConic.vf s <? 0) = false
  /\ (PatchedConic.ef s <? 0) = false
  /\ (PatchedConic.vpl s <? 0) = false
  /\ (PatchedConic.deltav1 s <? 0) = false
  /\ (PatchedConic.Q_opt s <? 0) = false.

(** * Properties *)

(** ** Binary64 facts *)

Module FloatFacts.

Lemma SFcompare_antisym (x y : spec_float) :
  SFcompare y x = option_map CompOpp (SFcompare x y).
Proof.
  destruct x as [sx|sx| |sx mx ex], y as [sy|sy| |sy my ey]; cbn;
    try reflexivity;
    try (destruct sx; reflexivity);
    try (destruct sy; reflexivity);
    try (destruct sx, sy; reflexivity).
  destruct sx, sy; cbn; try reflexivity;
    rewrite (Z.compare_antisym ex ey);
    destruct (ex ?= ey)%Z; cbn; try reflexivity;
    change (Pos.compare_cont Eq my mx) with (Pos.compare my mx);
    change (Pos.compare_cont Eq mx my) with (Pos.compare mx my);
    rewrite (Pos.compare_antisym mx my);
    destruct (Pos.compare mx my); reflexivity.
Qed.

Lemma ltb_leb (x y : float) : (x <? y) = true -> (x <=? y) = true.
Proof.
  rewrite ltb_spec, leb_spec. unfold SFltb, SFleb.
  destruct (SFcompare (Prim2SF x) (Prim2SF y)) as [[]|]; congruence.
Qed.

Lemma ltb_not_leb (x y : float) : (x <? y) = true -> (y <=? x) = false.
Proof.
  rewrite ltb_spec, leb_spec. unfold SFltb, SFleb.
  rewrite (SFcompare_antisym (Prim2SF x) (Prim2SF y)).
  destruct (SFcompare (Prim2SF x) (Prim2SF y)) as [[]|]; cbn; congruence.
Qed.

Lemma mul_comm (x y : float) : x * y = y * x.
Proof.
  apply Prim2SF_inj. rewrite !mul_spec. unfold SF64mul.
  destruct (Prim2SF x) as [sx|sx| |sx mx ex],
           (Prim2SF y) as [sy|sy| |sy my ey]; cbn;
    rewrite ?(xorb_comm sx sy); try reflexivity.
  now rewrite (Pos.mul_comm mx my), (Z.add_comm ex ey).
Qed.

(** Adding [0.0] changes no float but the negative zero. *)
Lemma add_zero_r (x : float) : x <> (-0) -> x + 0 = x.
Proof.
  intros Hx. apply Prim2SF_inj. rewrite add_spec. unfold SF64add.
  change (Prim2SF 0) with (S754_zero false).
  destruct (Prim2SF x) as [sx|sx| |sx mx ex] eqn:E; cbn; try reflexivity.
  destruct sx; [|reflexivity].
  exfalso. apply Hx. apply Prim2SF_inj. rewrite E. reflexivity.
Qed.

Lemma add_zero_same (x : float) : same_number (x + 0) x.
Proof.
  destruct (Prim2SF x) as [sx|sx| |sx mx ex] eqn:E.
  2-4: left; apply add_zero_r; intros ->; vm_compute in E; discriminate.
  destruct sx.
  - right. rewrite FloatAxioms.eqb_spec, add_spec, E. reflexivity.
  - left; apply add_zero_r; intros ->; vm_compute in E; discriminate.
Qed.

Lemma add_zero_idem (x : float) : (x + 0) + 0 = x + 0.
Proof.
  apply add_zero_r. intros H.
  apply (f_equal Prim2SF) in H. rewrite add_spec in H.
  change (Prim2SF 0) with (S754_zero false) in H.
  change (Prim2SF (-0)) with (S754_zero true) in H.
  unfold SF64add in H.
  destruct (Prim2SF x) as [[]|sx| |sx mx ex]; cbn in H; discriminate.
Qed.

(** The magnitude of a positive number is the number. *)
Lemma abs_pos (x : float) : (0 <? x) = true -> abs x = x.
Proof.
  intros H. apply Prim2SF_inj. rewrite abs_spec.
  rewrite ltb_spec in H. change (Prim2SF 0) with (S754_zero false) in H.
  unfold SFltb in H.
  destruct (Prim2SF x) as [sx|sx| |sx mx ex]; cbn in H; try discriminate H;
    destruct sx; cbn in H; try discriminate H; reflexivity.
Qed.

(** [np.clip(x, -1.0, 1.0)] of a number lies in [[-1, 1]]. *)
Lemma clip_unit (x : float) :
  is_nan x = false -> in_unit_range (Np.clip x (-1) 1).
Proof.
  intros Hx. unfold in_unit_range, Np.clip, Np.maximum. rewrite Hx.
  destruct (-1 <? x) eqn:Hlo.
  - unfold Np.minimum. rewrite Hx.
    destruct (x <? 1) eqn:Hhi.
    + split; now apply ltb_leb.
    + split; reflexivity.
  - split; reflexivity.
Qed.

(** A NaN goes through [np.clip] unchanged. *)
Lemma clip_nan (x lo hi : float) :
  is_nan x = true -> Np.clip x lo hi = x.
Proof.
  intros Hx. unfold Np.clip, Np.maximum, Np.minimum. now rewrite Hx, Hx.
Qed.

End FloatFacts.

(** ** The constructor *)

Section Constructor.

Context (lm : Np.Libm).

Lemma init_geometry_raise (depart arrive : Orbit.t) (lam1 rf : float) :
  (Orbit.a arrive <=? 0) = true ->
  PatchedConic.init_geometry lm depart arrive lam1 rf = Raise not_elliptical.
Proof.
  intros H. unfold PatchedConic.init_geometry. now rewrite H.
Qed.

Lemma init_raise (depart arrive : Orbit.t) (lam1 rf : float) :
  (Orbit.a arrive <=? 0) = true ->
  PatchedConic.init lm depart arrive lam1 rf = Raise not_elliptical.
Proof.
  intros H. unfold PatchedConic.init. now rewrite init_geometry_raise.
Qed.

Lemma init_geometry_ok (depart arrive : Orbit.t) (lam1 rf : float) :
  (Orbit.a arrive <=? 0) = false ->
  exists o, PatchedConic.init_geometry lm depart arrive lam1 rf = Ok o.
Proof.
  intros H. unfold PatchedConic.init_geometry. rewrite H. eexists.
  reflexivity.
Qed.

Lemma init_ok (depart arrive : Orbit.t) (lam1 rf : float) :
  (Orbit.a arrive <=? 0) = false ->
  exists s, PatchedConic.init lm depart arrive lam1 rf = Ok s.
Proof.
  intros H. unfold PatchedConic.init.
  destruct (init_geometry_ok depart arrive lam1 rf H) as [o ->].
  eexists. reflexivity.
Qed.

(** A constructed object holds the geometry [__init__] computed and the
    sensitivities [compute_gradients] derived from it. *)
Lemma init_inv (depart arrive : Orbit.t) (lam1 rf : float)
      (s : PatchedConic.t) :
  PatchedConic.init lm depart arrive lam1 rf = Ok s ->
  PatchedConic.init_geometry lm depart arrive lam1 rf
  = Ok (PatchedConic.geo s)
  /\ PatchedConic.grad s = PatchedConic.compute_gradients lm s
  /\ (Orbit.a arrive <=? 0) = false.
Proof.
  unfold PatchedConic.init. intros H.
  destruct (Orbit.a arrive <=? 0) eqn:Ha.
  - rewrite (init_geometry_raise depart arrive lam1 rf Ha) in H.
    discriminate.
  - destruct (PatchedConic.init_geometry lm depart arrive lam1 rf) as [o|e];
      inversion H; subst; cbn. auto.
Qed.

(** The arguments of the constructor are stored as they are. *)
Lemma init_geometry_args (depart arrive : Orbit.t) (lam1 rf : float)
      (o : PatchedConic.geometry) :
  PatchedConic.init_geometry lm depart arrive lam1 rf = Ok o ->
  PatchedConic.depart o = depart /\ PatchedConic.arrive o = arrive
  /\ PatchedConic.lam1 o = lam1 /\ PatchedConic.rf o = rf.
Proof.
  unfold PatchedConic.init_geometry.
  destruct (Orbit.a arrive <=? 0); [discriminate|].
  intros H; inversion H; subst; cbn. auto.
Qed.

Lemma init_args (depart arrive : Orbit.t) (lam1 rf : float)
      (s : PatchedConic.t) :
  PatchedConic.init lm depart arrive lam1 rf = Ok s ->
  PatchedConic.depart s = depart /\ PatchedConic.arrive s = arrive
  /\ PatchedConic.lam1 s = lam1 /\ PatchedConic.rf s = rf.
Proof.
  intros H. apply init_inv in H as (H & _ & _).
  now apply init_geometry_args in H.
Qed.

Lemma init_geometry_relations (depart arrive : Orbit.t) (lam1 rf : float)
      (o : PatchedConic.geometry) :
  PatchedConic.init_geometry lm depart arrive lam1 rf = Ok o ->
  lunar_hyperbola lm o /\ velocity_triangle lm o /\ time_of_flight lm o.
Proof.
  unfold PatchedConic.init_geometry.
  destruct (Orbit.a arrive <=? 0); [discriminate|].
  intros H; inversion H; subst; clear H.
  unfold lunar_hyperbola, velocity_triangle, time_of_flight; cbn.
  repeat split; reflexivity.
Qed.

Lemma compute_gradients_outputs (o : PatchedConic.geometry) :
  sgra_outputs (PatchedConic.compute_gradients lm o).
Proof.
  unfold sgra_outputs; cbv zeta.
  rewrite (FloatFacts.mul_comm
             (PatchedConic.lam (PatchedConic.compute_gradients lm o))
             (PatchedConic.g (PatchedConic.compute_gradients lm o))).
  rewrite (FloatFacts.mul_comm
             (PatchedConic.lam (PatchedConic.compute_gradients lm o))
             (fst (PatchedConic.dg_dx (PatchedConic.compute_gradients lm o)))).
  rewrite (FloatFacts.mul_comm
             (PatchedConic.lam (PatchedConic.compute_gradients lm o))
             (snd (PatchedConic.dg_dx (PatchedConic.compute_gradients lm o)))).
  repeat split; reflexivity.
Qed.

Lemma compute_gradients_cost (s : PatchedConic.t) :
  PatchedConic.grad s = PatchedConic.compute_gradients lm s ->
  PatchedConic.f s
  = abs (Orbit.v (PatchedConic.depart s)
         - sqrt (Orbit.mu (PatchedConic.depart s)
                 / Orbit.r (PatchedConic.depart s)))
    + (PatchedConic.vpl s - PatchedConic.vf s)
  /\ PatchedConic.g s = PatchedConic.rf s - PatchedConic.rpl s.
Proof.
  intros H. rewrite H. split; reflexivity.
Qed.

End Constructor.

(** ** Claims on the constructed state *)

(** C1: for every departure and arrival orbit with arrival semimajor axis
    greater than 0 the constructor builds a [PatchedConic], and its
    lunar-hyperbola quantities satisfy the closed-form conic relations:
    [Q = r_soi * v2^2 / mu_moon], [ef = sqrt (1 + Q (Q - 2) cos(phi2)^2)],
    [af = r_soi / (2 - Q)], [rpl = af (1 - ef)] and
    [vpl = sqrt (mu_moon (1 + ef) / (af (1 - ef)))]; the selenocentric speed
    [v2] is the third side of the velocity triangle. *)
Theorem C1_lunar_hyperbola_closed_forms
        (lm : Np.Libm) (depart arrive : Orbit.t) (lam1 rf : float) :
  (0 <? Orbit.a arrive) = true ->
  exists s, PatchedConic.init lm depart arrive lam1 rf = Ok s
            /\ lunar_hyperbola lm s /\ velocity_triangle lm s.
Proof.
  intros Ha. apply FloatFacts.ltb_not_leb in Ha.
  destruct (init_ok lm depart arrive lam1 rf Ha) as [s Hs].
  exists s. split; [exact Hs|].
  apply init_inv in Hs as (Hg & _ & _).
  apply init_geometry_relations in Hg as (H1 & H2 & _). auto.
Qed.

(** The departure and intercept orbits of the script: the intercept orbit is
    elliptical and the relations hold of the state that is built. *)
Lemma C1_witness :
  (0 <? Orbit.a Scenario.intercept) = true
  /\ exists s,
      PatchedConic.init Scenario.lm Scenario.depart Scenario.intercept
                        (RefLibm.pi / 2) 1937000 = Ok s
      /\ lunar_hyperbola Scenario.lm s /\ velocity_triangle Scenario.lm s.
Proof.
  assert (Ha : (0 <? Orbit.a Scenario.intercept) = true)
    by (vm_compute; reflexivity).
  split; [exact Ha|].
  exact (C1_lunar_hyperbola_closed_forms Scenario.lm Scenario.depart
           Scenario.intercept (RefLibm.pi / 2) 1937000 Ha).
Defined.

(** C2: for every constructed [PatchedConic] the Lagrange-multiplier
    estimate is [lam = -(dg/dx . dg/dx^T)^-1 (dg/dx . df/dx^T)], the
    augmented gradient is [dF/dx = df/dx + lam dg/dx], the augmented
    objective is [F = f + lam g] and the optimality residual is
    [Q_opt = |dF/dx|^2]. *)
Theorem C2_sgra_terminal_outputs
        (lm : Np.Libm) (depart arrive : Orbit.t) (lam1 rf : float)
        (s : PatchedConic.t) :
  PatchedConic.init lm depart arrive lam1 rf = Ok s -> sgra_outputs s.
Proof.
  intros Hs. apply init_inv in Hs as (_ & Hgrad & _).
  rewrite Hgrad. apply compute_gradients_outputs.
Qed.

(** The same orbits: a state is built and its outputs have the closed
    forms. *)
Lemma C2_witness :
  exists s,
    PatchedConic.init Scenario.lm Scenario.depart Scenario.intercept
                      (RefLibm.pi / 2) 1937000 = Ok s
    /\ sgra_outputs s.
Proof.
  destruct (PatchedConic.init Scenario.lm Scenario.depart Scenario.intercept
                              (RefLibm.pi / 2) 1937000) as [s|e] eqn:E.
  - exists s. split; [reflexivity|].
    exact (C2_sgra_terminal_outputs Scenario.lm Scenario.depart
             Scenario.intercept (RefLibm.pi / 2) 1937000 s E).
  - exfalso. vm_compute in E. discriminate E.
Defined.

(** C3, as the code has it: for every constructed [PatchedConic] the cost is
    [f = |v0 - sqrt (mu0 / r0)| + (vpl - vf)], where [mu0] is the
    gravitational parameter of the departure orbit and the second term is
    the signed difference of the perilune speed and the circular speed
    [vf = sqrt (mu_moon / rf)], and the constraint is [g = rf - rpl].  When
    the perilune speed exceeds the circular speed the second term is its own
    magnitude, and the cost is the sum of the two magnitudes. *)
Theorem C3_cost_and_constraint
        (lm : Np.Libm) (depart arrive : Orbit.t) (lam1 rf : float)
        (s : PatchedConic.t) :
  PatchedConic.init lm depart arrive lam1 rf = Ok s ->
  cost_of_code s
  /\ ((0 <? PatchedConic.vpl s - PatchedConic.vf s) = true ->
      PatchedConic.f s
      = abs (Orbit.v (PatchedConic.depart s)
             - sqrt (Orbit.mu (PatchedConic.depart s)
                     / Orbit.r (PatchedConic.depart s)))
        + abs (PatchedConic.vpl s - PatchedConic.vf s)).
Proof.
  intros Hs. pose proof (init_args lm _ _ _ _ _ Hs) as (_ & _ & _ & Hrf).
  apply init_inv in Hs as (Hg & Hgrad & _).
  destruct (compute_gradients_cost lm s Hgrad) as [Hf Hc].
  split.
  - unfold cost_of_code; cbv zeta. repeat split; [exact Hf| |exact Hc].
    unfold PatchedConic.init_geometry in Hg.
    destruct (Orbit.a arrive <=? 0); [discriminate|].
    inversion Hg as [Hgeo]. reflexivity.
  - intros Hpos. rewrite (FloatFacts.abs_pos _ Hpos). exact Hf.
Qed.

(** The same orbits with the final radius of the script: the perilune speed
    is above the circular speed, and the cost is the sum of the two
    magnitudes. *)
Lemma C3_witness :
  exists s,
    PatchedConic.init Scenario.lm Scenario.depart Scenario.intercept
                      (RefLibm.pi / 2) 1937000 = Ok s
    /\ (0 <? PatchedConic.vpl s - PatchedConic.vf s) = true
    /\ cost_of_code s
    /\ PatchedConic.f s
       = abs (Orbit.v (PatchedConic.depart s)
              - sqrt (Orbit.mu (PatchedConic.depart s)
                      / Orbit.r (PatchedConic.depart s)))
         + abs (PatchedConic.vpl s - PatchedConic.vf s).
Proof.
  destruct (PatchedConic.init Scenario.lm Scenario.depart Scenario.intercept
                              (RefLibm.pi / 2) 1937000) as [s|e] eqn:E.
  - exists s. split; [reflexivity|].
    assert (Hpos : (0 <? PatchedConic.vpl s - PatchedConic.vf s) = true)
      by (vm_compute in E; inversion E; vm_compute; reflexivity).
    split; [exact Hpos|].
    destruct (C3_cost_and_constraint Scenario.lm Scenario.depart
                Scenario.intercept (RefLibm.pi / 2) 1937000 s E) as [Hc Hm].
    split; [exact Hc | exact (Hm Hpos)].
  - exfalso. vm_compute in E. discriminate E.
Defined.

(** C3, as claimed, fails: for the transfer of the script with a final
    radius of one metre the factory builds a state whose cost is negative,
    about -1193548 m/s, because the perilune speed is below the circular
    speed at the final radius; the cost is not the sum of the two
    magnitudes. *)
Lemma C3_counterexample :
  exists s,
    init_patched_conic Scenario.lm Scenario.orb Quit Scenario.base_low dx_zero
    = Ok s
    /\ (PatchedConic.f s <? 0) = true
    /\ (PatchedConic.vpl s <? PatchedConic.vf s) = true
    /\ ~ cost_of_magnitudes s.
Proof.
  eexists. split; [vm_compute; reflexivity|].
  split; [vm_compute; reflexivity|].
  split; [vm_compute; reflexivity|].
  intros [Hf _].
  apply (f_equal (fun c => c <? 0)) in Hf. vm_compute in Hf. discriminate Hf.
Qed.

(** C7: the constructor fails if and only if the semimajor axis of the
    arrival orbit satisfies [a <= 0], and then with the precondition error;
    for every arrival orbit with [a > 0] the time of flight is computed (by
    Kepler's equation) and a state is built. *)
Theorem C7_precondition_error
        (lm : Np.Libm) (depart arrive : Orbit.t) (lam1 rf : float) :
  (forall e,
      PatchedConic.init lm depart arrive lam1 rf = Raise e
      <-> (Orbit.a arrive <=? 0) = true /\ e = not_elliptical)
  /\ ((0 <? Orbit.a arrive) = true ->
      exists s, PatchedConic.init lm depart arrive lam1 rf = Ok s
                /\ time_of_flight lm s).
Proof.
  split.
  - intros e. split.
    + intros H. destruct (Orbit.a arrive <=? 0) eqn:Ha.
      * rewrite (init_raise lm depart arrive lam1 rf Ha) in H.
        inversion H. auto.
      * destruct (init_ok lm depart arrive lam1 rf Ha) as [s Hs].
        congruence.
    + intros [Ha ->]. now apply init_raise.
  - intros Ha. apply FloatFacts.ltb_not_leb in Ha.
    destruct (init_ok lm depart arrive lam1 rf Ha) as [s Hs].
    exists s. split; [exact Hs|].
    apply init_inv in Hs as (Hg & _ & _).
    now apply init_geometry_relations in Hg.
Qed.

(** Both sides of C7 on concrete orbits: the intercept state of the script
    is elliptical and a state is built; the state a departure above the
    escape speed reaches is hyperbolic and the constructor raises. *)
Lemma C7_witness :
  (exists s,
      PatchedConic.init Scenario.lm Scenario.depart Scenario.intercept
                        (RefLibm.pi / 2) 1937000 = Ok s
      /\ time_of_flight Scenario.lm s)
  /\ PatchedConic.init Scenario.lm Scenario.depart
       (RefOrbit.at_ (RefOrbit.init PatchedConic.mu_earth 6556400 12000 0)
                     3.0e8 Orbit.Plus)
       (RefLibm.pi / 2) 1937000 = Raise not_elliptical.
Proof.
  split.
  - apply (proj2 (C7_precondition_error Scenario.lm Scenario.depart
                    Scenario.intercept (RefLibm.pi / 2) 1937000)).
    vm_compute. reflexivity.
  - apply (proj1 (C7_precondition_error Scenario.lm Scenario.depart _
                    (RefLibm.pi / 2) 1937000)).
    split; [vm_compute; reflexivity | reflexivity].
Defined.

(** C4, as the code has it: for every arrival orbit with [a > 0] the
    constructor builds a state; each of its two arcsines is taken of the
    argument clipped to [[-1, 1]] by [np.clip], so that the value passed to
    the arcsine lies in [[-1, 1]] whenever the argument is a number; each of
    its four arccosines is taken of the cosine the orbit object gives,
    unclamped. *)
Theorem C4_arcsine_arguments_clipped
        (lm : Np.Libm) (depart arrive : Orbit.t) (lam1 rf : float) :
  (0 <? Orbit.a arrive) = true ->
  exists s, PatchedConic.init lm depart arrive lam1 rf = Ok s
            /\ inverse_trig_calls lm depart arrive lam1 s.
Proof.
  intros Ha. apply FloatFacts.ltb_not_leb in Ha.
  destruct (init_ok lm depart arrive lam1 rf Ha) as [s Hs].
  exists s. split; [exact Hs|].
  apply init_inv in Hs as (Hg & _ & _).
  unfold PatchedConic.init_geometry in Hg. rewrite Ha in Hg.
  inversion Hg as [Hgeo]. clear Hg Hgeo.
  unfold inverse_trig_calls; cbn.
  repeat split; try reflexivity; apply FloatFacts.clip_unit; assumption.
Qed.

(** The arrival state at 60000 km is inside the sphere of influence: the
    argument of the first arcsine is about 1.1, it is clipped to 1 and the
    phase angle [gam1] is a number. *)
Lemma C4_witness :
  (0 <? Orbit.a Scenario.arrive_near) = true
  /\ (1 <? PatchedConic.sg1_raw Scenario.lm Scenario.arrive_near
                                (RefLibm.pi / 2)) = true
  /\ exists s,
      PatchedConic.init Scenario.lm Scenario.depart Scenario.arrive_near
                        (RefLibm.pi / 2) 1937000 = Ok s
      /\ inverse_trig_calls Scenario.lm Scenario.depart Scenario.arrive_near
                            (RefLibm.pi / 2) s
      /\ is_nan (PatchedConic.gam1 s) = false
      /\ is_nan (PatchedConic.eps s) = false.
Proof.
  assert (Ha : (0 <? Orbit.a Scenario.arrive_near) = true)
    by (vm_compute; reflexivity).
  split; [exact Ha|]. split; [vm_compute; reflexivity|].
  destruct (C4_arcsine_arguments_clipped Scenario.lm Scenario.depart
              Scenario.arrive_near (RefLibm.pi / 2) 1937000 Ha)
    as [s [Hs Hc]].
  exists s. split; [exact Hs|]. split; [exact Hc|].
  vm_compute in Hs. inversion Hs. split; vm_compute; reflexivity.
Defined.

(** C4, as claimed, fails: with the cosine of the departure eccentric
    anomaly one unit in the last place above 1 the constructor still builds
    a state, but the arccosine is taken of the unclamped value: [E0] is NaN,
    where the arccosine of the clamped cosine is a number, and the time of
    flight computed from it is NaN. *)
Lemma C4_counterexample :
  exists s,
    PatchedConic.init Scenario.lm Scenario.depart_rounded Scenario.intercept
                      (RefLibm.pi / 2) 1937000 = Ok s
    /\ (1 <? Orbit.cos_E Scenario.depart_rounded) = true
    /\ is_nan (PatchedConic.E0 s) = true
    /\ is_nan (Np.arccos Scenario.lm
                 (Np.clip (Orbit.cos_E Scenario.depart_rounded) (-1) 1))
       = false
    /\ is_nan (PatchedConic.t1 s) = true
    /\ ~ arccosines_clamped Scenario.lm Scenario.depart_rounded
         Scenario.intercept s.
Proof.
  eexists. split; [vm_compute; reflexivity|].
  repeat (split; [vm_compute; reflexivity|]).
  intros [H _].
  apply (f_equal is_nan) in H. vm_compute in H. discriminate H.
Qed.


(** ** The factory *)

Section FactoryFacts.

Context (lm : Np.Libm) (orb : Orbit.Ops) (dbg : session).

(** The factory, in terms of the values it computes. *)
Lemma init_patched_conic_eq (solution_x : solution) (dx : float * float) :
  init_patched_conic lm orb dbg solution_x dx
  = if Np.isnan (Orbit.v (factory_intercept lm orb solution_x dx)) then
      set_trace_then_raise dbg not_reached
    else
      PatchedConic.init lm (factory_depart orb solution_x dx)
                        (factory_intercept lm orb solution_x dx)
                        (factory_lam1 solution_x dx) (factory_rf solution_x).
Proof.
  unfold init_patched_conic, factory_intercept, factory_depart, factory_lam1,
    factory_rf.
  destruct (solution_tuple solution_x) as [[[[r0 v0] phi0] lam1] rf].
  reflexivity.
Qed.

Lemma init_patched_conic_ok (solution_x : solution) (dx : float * float)
      (s : PatchedConic.t) :
  init_patched_conic lm orb dbg solution_x dx = Ok s ->
  Np.isnan (Orbit.v (factory_intercept lm orb solution_x dx)) = false
  /\ PatchedConic.init lm (factory_depart orb solution_x dx)
                       (factory_intercept lm orb solution_x dx)
                       (factory_lam1 solution_x dx) (factory_rf solution_x)
     = Ok s.
Proof.
  rewrite init_patched_conic_eq.
  destruct (Np.isnan _); [destruct dbg; discriminate | auto].
Qed.

(** What the factory stores in the state it returns. *)
Lemma init_patched_conic_args (solution_x : solution) (dx : float * float)
      (s : PatchedConic.t) :
  init_patched_conic lm orb dbg solution_x dx = Ok s ->
  PatchedConic.depart s = factory_depart orb solution_x dx
  /\ PatchedConic.arrive s = factory_intercept lm orb solution_x dx
  /\ PatchedConic.lam1 s = factory_lam1 solution_x dx
  /\ PatchedConic.rf s = factory_rf solution_x.
Proof.
  intros H. apply init_patched_conic_ok in H as [_ H].
  now apply init_args in H.
Qed.

(** [bdb.BdbQuit] leaves the factory only from its debugger. *)
Lemma init_patched_conic_quit (solution_x : solution) (dx : float * float) :
  init_patched_conic lm orb dbg solution_x dx = Raise BdbQuit ->
  Np.isnan (Orbit.v (factory_intercept lm orb solution_x dx)) = true
  /\ dbg = Quit.
Proof.
  rewrite init_patched_conic_eq.
  destruct (Np.isnan _).
  - destruct dbg; [discriminate | auto].
  - intros H.
    destruct (Orbit.a (factory_intercept lm orb solution_x dx) <=? 0) eqn:Ha.
    + rewrite (init_raise lm _ _ _ _ Ha) in H. discriminate H.
    + destruct (init_ok lm (factory_depart orb solution_x dx) _
                  (factory_lam1 solution_x dx) (factory_rf solution_x) Ha)
        as [s Hs].
      congruence.
Qed.

End FactoryFacts.

(** A state the factory returns does not depend on the debugger. *)
Lemma init_patched_conic_session (lm : Np.Libm) (orb : Orbit.Ops)
      (dbg dbg' : session) (solution_x : solution) (dx : float * float)
      (s : PatchedConic.t) :
  init_patched_conic lm orb dbg solution_x dx = Ok s ->
  init_patched_conic lm orb dbg' solution_x dx = Ok s.
Proof.
  intros H. apply init_patched_conic_ok in H as [Hnan H].
  now rewrite init_patched_conic_eq, Hnan.
Qed.

(** C8, as the code has it: when the speed of the state
    [depart.at(r1, '+')] is NaN the factory builds no [PatchedConic] and
    enters the debugger before its [raise]: it raises the
    invalid-trajectory error when the session is continued, and
    [bdb.BdbQuit] leaves it when the session is quit.  Otherwise its result
    is that of the constructor on the new departure and intercept orbits,
    the perturbed phase angle and the final radius: the precondition error
    when the intercept orbit has [a <= 0], a fresh state holding these four
    when it has [a > 0]. *)
Theorem C8_factory_outcomes
        (lm : Np.Libm) (orb : Orbit.Ops) (dbg : session)
        (solution_x : solution) (dx : float * float) :
  let depart := factory_depart orb solution_x dx in
  let intercept := factory_intercept lm orb solution_x dx in
  let lam1 := factory_lam1 solution_x dx in
  let rf := factory_rf solution_x in
  let res := init_patched_conic lm orb dbg solution_x dx in
  (res = Raise not_reached
   <-> Np.isnan (Orbit.v intercept) = true /\ dbg = Continue)
  /\ (res = Raise BdbQuit
      <-> Np.isnan (Orbit.v intercept) = true /\ dbg = Quit)
  /\ (res = Raise not_elliptical
      <-> Np.isnan (Orbit.v intercept) = false
          /\ (Orbit.a intercept <=? 0) = true)
  /\ (forall s,
         res = Ok s
         <-> Np.isnan (Orbit.v intercept) = false
             /\ PatchedConic.init lm depart intercept lam1 rf = Ok s)
  /\ (forall s,
         res = Ok s ->
         PatchedConic.depart s = depart /\ PatchedConic.arrive s = intercept
         /\ PatchedConic.lam1 s = lam1 /\ PatchedConic.rf s = rf)
  /\ (Np.isnan (Orbit.v intercept) = false ->
      (0 <? Orbit.a intercept) = true -> exists s, res = Ok s).
Proof.
  cbv zeta.
  split; [|split;
           [split; [apply init_patched_conic_quit|
                    intros [Hnan ->];
                    now rewrite init_patched_conic_eq, Hnan]|]].
  { rewrite init_patched_conic_eq.
    destruct (Np.isnan (Orbit.v (factory_intercept lm orb solution_x dx)))
      eqn:Hnan.
    - destruct dbg; cbn; split; auto; try discriminate.
      intros [_ H]; discriminate H.
    - split; [|intros [H _]; discriminate H].
      intros H.
      destruct (Orbit.a (factory_intercept lm orb solution_x dx) <=? 0)
        eqn:Ha.
      + rewrite (init_raise lm _ _ _ _ Ha) in H. discriminate H.
      + destruct (init_ok lm (factory_depart orb solution_x dx) _
                    (factory_lam1 solution_x dx) (factory_rf solution_x) Ha)
          as [s Hs].
        congruence. }
  rewrite init_patched_conic_eq.
  destruct (Np.isnan (Orbit.v (factory_intercept lm orb solution_x dx)))
    eqn:Hnan.
  - repeat split; intros; try tauto; try discriminate;
      try (destruct dbg; discriminate).
    + destruct H; discriminate.
    + destruct H; discriminate.
  - split; [split|].
    { intros H. split; [reflexivity|].
      destruct (Orbit.a (factory_intercept lm orb solution_x dx) <=? 0)
        eqn:Ha; [reflexivity|].
      destruct (init_ok lm (factory_depart orb solution_x dx) _
                  (factory_lam1 solution_x dx) (factory_rf solution_x) Ha)
        as [s Hs].
      congruence. }
    { intros [_ Ha]. now apply init_raise. }
    split; [intros s; tauto|].
    split.
    { intros s Hs. now apply init_args in Hs. }
    intros _ Ha. apply FloatFacts.ltb_not_leb in Ha. now apply init_ok.
Qed.

(** The outcomes of C8 for the tuple of the script: a state for a speed
    increment of 3225 m/s; the precondition error for an increment of
    4000 m/s; for an increment of 3000 m/s, with which the intercept radius
    is above the apogee, the invalid-trajectory error when the debugger
    session is continued and [bdb.BdbQuit] when it is quit. *)
Lemma C8_witness :
  (exists s,
      init_patched_conic Scenario.lm Scenario.orb Quit Scenario.base dx_zero
      = Ok s)
  /\ init_patched_conic Scenario.lm Scenario.orb Quit Scenario.base_fast
                        dx_zero
     = Raise not_elliptical
  /\ init_patched_conic Scenario.lm Scenario.orb Continue
       (Scenario.tuple 3000 1937000) dx_zero
     = Raise not_reached
  /\ init_patched_conic Scenario.lm Scenario.orb Quit
       (Scenario.tuple 3000 1937000) dx_zero
     = Raise BdbQuit.
Proof.
  split; [|split; [|split]].
  - apply (C8_factory_outcomes Scenario.lm Scenario.orb Quit Scenario.base
             dx_zero); vm_compute; reflexivity.
  - apply (C8_factory_outcomes Scenario.lm Scenario.orb Quit
             Scenario.base_fast dx_zero); split; vm_compute; reflexivity.
  - apply (C8_factory_outcomes Scenario.lm Scenario.orb Continue
             (Scenario.tuple 3000 1937000) dx_zero);
      split; vm_compute; reflexivity.
  - apply (C8_factory_outcomes Scenario.lm Scenario.orb Quit
             (Scenario.tuple 3000 1937000) dx_zero);
      split; vm_compute; reflexivity.
Defined.

(** C8, as claimed, fails: for a speed increment of 4000 m/s the departure
    orbit is hyperbolic, the intercept radius is reached and the intercept
    speed is finite (about 4430 m/s), yet the factory returns no
    [PatchedConic]: the constructor raises its precondition error, whatever
    a debugger session would do. *)
Lemma C8_counterexample :
  is_finite (Orbit.v (factory_intercept Scenario.lm Scenario.orb
                        Scenario.base_fast dx_zero)) = true
  /\ (Orbit.a (factory_intercept Scenario.lm Scenario.orb
                 Scenario.base_fast dx_zero) <? 0) = true
  /\ init_patched_conic Scenario.lm Scenario.orb Continue Scenario.base_fast
                        dx_zero
     = Raise not_elliptical
  /\ init_patched_conic Scenario.lm Scenario.orb Quit Scenario.base_fast
                        dx_zero
     = Raise not_elliptical
  /\ ~ exists dbg s,
        init_patched_conic Scenario.lm Scenario.orb dbg Scenario.base_fast
                           dx_zero = Ok s.
Proof.
  assert (H : forall dbg,
             init_patched_conic Scenario.lm Scenario.orb dbg
                                Scenario.base_fast dx_zero
             = Raise not_elliptical)
    by (intros [|]; vm_compute; reflexivity).
  split; [vm_compute; reflexivity|].
  split; [vm_compute; reflexivity|].
  split; [apply H|].
  split; [apply H|].
  intros (dbg & s & Hs). rewrite H in Hs. discriminate Hs.
Qed.

(** C6, as the code has it: a state the factory has returned is reproduced
    by the factory from itself and the zero perturbation, field for field,
    when the [Orbit] constructor keeps the radius, speed and flight-path
    angle it is given and neither the departure speed nor the phase angle
    of the state is the negative zero (adding [0.0] changes no other
    float). *)
Theorem C6_factory_round_trip
        (lm : Np.Libm) (orb : Orbit.Ops) (dbg dbg' : session)
        (solution_x : solution) (dx : float * float) (s : PatchedConic.t) :
  stores_arguments orb ->
  init_patched_conic lm orb dbg solution_x dx = Ok s ->
  Orbit.v (PatchedConic.depart s) <> (-0) ->
  PatchedConic.lam1 s <> (-0) ->
  init_patched_conic lm orb dbg' (OfConic s) dx_zero = Ok s.
Proof.
  intros Hstore Hs Hv Hlam.
  pose proof (init_patched_conic_args lm orb _ _ _ _ Hs)
    as (Hdep & Harr & Hl & Hrf).
  pose proof (init_patched_conic_ok lm orb _ _ _ _ Hs) as [Hnan Hinit].
  assert (Hd' : factory_depart orb (OfConic s) dx_zero
                = factory_depart orb solution_x dx).
  { unfold factory_depart at 1. cbn -[PatchedConic.depart].
    rewrite (FloatFacts.add_zero_r _ Hv). rewrite Hdep.
    unfold factory_depart.
    destruct (solution_tuple solution_x) as [[[[r0 v0] phi0] l0] rf0].
    destruct (Hstore PatchedConic.mu_earth r0 (v0 + snd dx) phi0)
      as (-> & -> & ->).
    reflexivity. }
  assert (Hl' : factory_lam1 (OfConic s) dx_zero
                = factory_lam1 solution_x dx).
  { unfold factory_lam1 at 1. cbn -[PatchedConic.lam1].
    rewrite (FloatFacts.add_zero_r _ Hlam). exact Hl. }
  assert (Hi' : factory_intercept lm orb (OfConic s) dx_zero
                = factory_intercept lm orb solution_x dx).
  { unfold factory_intercept. now rewrite Hd', Hl'. }
  rewrite init_patched_conic_eq, Hi', Hd', Hl', Hnan.
  replace (factory_rf (OfConic s)) with (factory_rf solution_x)
    by (symmetry; exact Hrf).
  exact Hinit.
Qed.

(** The state the factory builds from the tuple of the script is rebuilt by
    the factory from itself. *)
Lemma C6_witness :
  exists s,
    init_patched_conic Scenario.lm Scenario.orb Quit Scenario.base dx_zero =
        Ok s
    /\ init_patched_conic Scenario.lm Scenario.orb Quit (OfConic s) dx_zero
       = Ok s.
Proof.
  destruct (init_patched_conic Scenario.lm Scenario.orb Quit Scenario.base
      dx_zero)
    as [s|e] eqn:E.
  - exists s. split; [reflexivity|].
    apply (C6_factory_round_trip Scenario.lm Scenario.orb Quit Quit
             Scenario.base dx_zero s).
    + intros mu r v phi. repeat split; reflexivity.
    + exact E.
    + vm_compute in E. inversion E. vm_compute. discriminate.
    + vm_compute in E. inversion E. vm_compute. discriminate.
  - exfalso. vm_compute in E. discriminate E.
Defined.

(** C6, as claimed, fails: the state built directly from the departure orbit
    of the script and its state at a radius of 300000 km is a
    [PatchedConic] on which the factory succeeds, but the factory rebuilds
    the arrival orbit at the intercept radius of the phase angle: the
    arrival radius of the result differs by more than 90000 km and the
    constraint by more than 10 km. *)
Lemma C6_counterexample :
  exists s s',
    PatchedConic.init Scenario.lm Scenario.depart Scenario.arrive_other
                      (RefLibm.pi / 2) 1937000 = Ok s
    /\ init_patched_conic Scenario.lm Scenario.orb Quit (OfConic s) dx_zero
       = Ok s'
    /\ (9.0e7 <? abs (Orbit.r (PatchedConic.arrive s')
                      - Orbit.r (PatchedConic.arrive s))) = true
    /\ (1.0e4 <? abs (PatchedConic.g s' - PatchedConic.g s)) = true
    /\ s' <> s.
Proof.
  eexists. eexists.
  split; [vm_compute; reflexivity|].
  split; [vm_compute; reflexivity|].
  split; [vm_compute; reflexivity|].
  split; [vm_compute; reflexivity|].
  intros H.
  apply (f_equal (fun t : PatchedConic.t =>
                    Orbit.r (PatchedConic.arrive t) <? 3.5e8)) in H.
  vm_compute in H. discriminate H.
Qed.

(** ** The restoration optimizer *)

Section Optimizer.

Context (lm : Np.Libm) (orb : Orbit.Ops) (pdb : nat -> session)
        (self : SGRA.t).

Lemma last_cons {A : Type} (a d : A) (l : list A) :
  List.last (a :: l) d = List.last l a.
Proof.
  revert a d. induction l as [|b l IH]; intros a d; [reflexivity|].
  change (List.last (a :: b :: l) d) with (List.last (b :: l) d).
  now rewrite (IH b d), (IH b a).
Qed.

(** One turn of the loop, case by case. *)
Lemma loop_step (n ii : nat) (beta : float) (x : PatchedConic.t) :
  let dv0 := SGRA.newton_step beta x in
  let res := init_patched_conic lm orb (pdb ii) (OfConic x) (0.0, dv0) in
  SGRA.loop lm orb pdb self (S n) ii beta x
  = if abs (PatchedConic.g x) <=? SGRA.gtol self then
      ([], SGRA.mkFinal SGRA.Converged x beta)
    else
      match res with
      | Ok xt =>
          if abs (PatchedConic.g xt) <? abs (PatchedConic.g x) then
            (SGRA.Call beta dv0 x res :: SGRA.Yield xt
               :: fst (SGRA.loop lm orb pdb self n (S ii) (SGRA.beta0 self)
                                 xt),
             snd (SGRA.loop lm orb pdb self n (S ii) (SGRA.beta0 self) xt))
          else
            (SGRA.Call beta dv0 x res
               :: fst (SGRA.loop lm orb pdb self n (S ii) (beta * 0.5) x),
             snd (SGRA.loop lm orb pdb self n (S ii) (beta * 0.5) x))
      | Raise (ValueError _) =>
          (SGRA.Call beta dv0 x res
             :: fst (SGRA.loop lm orb pdb self n (S ii) (beta * 0.5) x),
           snd (SGRA.loop lm orb pdb self n (S ii) (beta * 0.5) x))
      | Raise e =>
          ([SGRA.Call beta dv0 x res], SGRA.mkFinal (SGRA.Raised e) x beta)
      end.
Proof.
  cbv zeta. cbn [SGRA.loop].
  destruct (abs (PatchedConic.g x) <=? SGRA.gtol self); [reflexivity|].
  destruct (init_patched_conic lm orb (pdb ii) (OfConic x)
              (0.0, SGRA.newton_step beta x)) as [xt|[msg|]].
  - destruct (abs (PatchedConic.g xt) <? abs (PatchedConic.g x)).
    + now destruct (SGRA.loop lm orb pdb self n (S ii) (SGRA.beta0 self) xt).
    + now destruct (SGRA.loop lm orb pdb self n (S ii) (beta * 0.5) x).
  - now destruct (SGRA.loop lm orb pdb self n (S ii) (beta * 0.5) x).
  - reflexivity.
Qed.

(** The loop calls the factory at most once for each value of [ii], and at
    most one state is yielded for each call. *)
Lemma loop_calls_bound (n ii : nat) (beta : float) (x : PatchedConic.t) :
  (List.length (SGRA.calls (fst (SGRA.loop lm orb pdb self n ii beta x)))
   <= n)%nat.
Proof.
  revert ii beta x. induction n as [|n IH]; intros ii beta x; [cbn; lia|].
  rewrite loop_step; cbv zeta.
  destruct (abs (PatchedConic.g x) <=? SGRA.gtol self); [cbn; lia|].
  destruct (init_patched_conic lm orb (pdb ii) (OfConic x) _)
    as [xt|[msg|]].
  - destruct (abs (PatchedConic.g xt) <? abs (PatchedConic.g x)); cbn.
    + specialize (IH (S ii) (SGRA.beta0 self) xt). lia.
    + specialize (IH (S ii) (beta * 0.5) x). lia.
  - cbn. specialize (IH (S ii) (beta * 0.5) x). lia.
  - cbn. lia.
Qed.

Lemma loop_yields_le_calls (n ii : nat) (beta : float)
      (x : PatchedConic.t) :
  (List.length (SGRA.yields (fst (SGRA.loop lm orb pdb self n ii beta x)))
   <= List.length
        (SGRA.calls (fst (SGRA.loop lm orb pdb self n ii beta x))))%nat.
Proof.
  revert ii beta x. induction n as [|n IH]; intros ii beta x; [cbn; lia|].
  rewrite loop_step; cbv zeta.
  destruct (abs (PatchedConic.g x) <=? SGRA.gtol self); [cbn; lia|].
  destruct (init_patched_conic lm orb (pdb ii) (OfConic x) _)
    as [xt|[msg|]].
  - destruct (abs (PatchedConic.g xt) <? abs (PatchedConic.g x)); cbn.
    + specialize (IH (S ii) (SGRA.beta0 self) xt). lia.
    + specialize (IH (S ii) (beta * 0.5) x). lia.
  - cbn. specialize (IH (S ii) (beta * 0.5) x). lia.
  - cbn. lia.
Qed.

(** How the loop ends: at the [break], with the tolerance met by the state
    it holds; or with the budget used up, one factory call for each value of
    [ii]; or with [bdb.BdbQuit] from the debugger of its last factory call,
    which found no speed at the intercept for the step from the state and
    the damping factor the loop holds.  The state it holds is the last one
    it yielded, or its input. *)
Lemma loop_final (n ii : nat) (beta : float) (x : PatchedConic.t) :
  let evs := fst (SGRA.loop lm orb pdb self n ii beta x) in
  let fin := snd (SGRA.loop lm orb pdb self n ii beta x) in
  SGRA.last fin = List.last (SGRA.yields evs) x
  /\ match SGRA.how fin with
     | SGRA.Converged =>
         (abs (PatchedConic.g (SGRA.last fin)) <=? SGRA.gtol self) = true
     | SGRA.Exhausted => List.length (SGRA.calls evs) = n
     | SGRA.Raised e =>
         e = BdbQuit
         /\ Np.isnan
              (Orbit.v
                 (factory_intercept lm orb (OfConic (SGRA.last fin))
                    (0.0, SGRA.newton_step (SGRA.last_beta fin)
                                           (SGRA.last fin)))) = true
         /\ (0 < List.length (SGRA.calls evs))%nat
         /\ pdb (ii + List.length (SGRA.calls evs) - 1)%nat = Quit
     end.
Proof.
  cbv zeta. revert ii beta x. induction n as [|n IH]; intros ii beta x.
  - cbn. auto.
  - rewrite loop_step; cbv zeta.
    destruct (abs (PatchedConic.g x) <=? SGRA.gtol self) eqn:Hg;
      [cbn; auto|].
    destruct (init_patched_conic lm orb (pdb ii) (OfConic x) _)
      as [xt|[msg|]] eqn:Hres.
    + destruct (abs (PatchedConic.g xt) <? abs (PatchedConic.g x)).
      * cbn [fst snd SGRA.yields SGRA.calls List.length].
        rewrite last_cons.
        destruct (IH (S ii) (SGRA.beta0 self) xt) as [H1 H2].
        split; [exact H1|].
        destruct (SGRA.how _); [exact H2 | now rewrite H2|].
        destruct H2 as (He & Hnan & Hpos & Hq).
        repeat split; [exact He | exact Hnan | lia|].
        rewrite <- Hq. f_equal. lia.
      * cbn [fst snd SGRA.yields SGRA.calls List.length].
        destruct (IH (S ii) (beta * 0.5) x) as [H1 H2].
        split; [exact H1|].
        destruct (SGRA.how _); [exact H2 | now rewrite H2|].
        destruct H2 as (He & Hnan & Hpos & Hq).
        repeat split; [exact He | exact Hnan | lia|].
        rewrite <- Hq. f_equal. lia.
    + cbn [fst snd SGRA.yields SGRA.calls List.length].
      destruct (IH (S ii) (beta * 0.5) x) as [H1 H2].
      split; [exact H1|].
      destruct (SGRA.how _); [exact H2 | now rewrite H2|].
      destruct H2 as (He & Hnan & Hpos & Hq).
      repeat split; [exact He | exact Hnan | lia|].
      rewrite <- Hq. f_equal. lia.
    + cbn [fst snd SGRA.yields SGRA.calls List.length SGRA.how SGRA.last
             SGRA.last_beta List.last].
      apply init_patched_conic_quit in Hres as [Hnan Hq].
      repeat split; [exact Hnan | lia|].
      rewrite <- Hq. f_equal. lia.
Qed.

(** The states the loop yields form a chain of accepted trials, whatever
    number of halvings the damping factor starts from. *)
Lemma loop_chain (n ii k : nat) (x : PatchedConic.t) :
  restoration_chain lm orb self x
    (SGRA.yields
       (fst (SGRA.loop lm orb pdb self n ii (halved k (SGRA.beta0 self))
                       x))).
Proof.
  revert ii k x. induction n as [|n IH]; intros ii k x; [exact I|].
  rewrite loop_step; cbv zeta.
  destruct (abs (PatchedConic.g x) <=? SGRA.gtol self); [exact I|].
  destruct (init_patched_conic lm orb (pdb ii) (OfConic x) _)
    as [xt|[msg|]] eqn:Hres.
  - destruct (abs (PatchedConic.g xt) <? abs (PatchedConic.g x)) eqn:Hlt.
    + cbn [fst SGRA.yields restoration_chain]. split.
      * split; [exact Hlt|]. exists k. intros dbg.
        exact (init_patched_conic_session lm orb _ dbg _ _ _ Hres).
      * exact (IH (S ii) 0%nat xt).
    + cbn [fst SGRA.yields]. exact (IH (S ii) (S k) x).
  - cbn [fst SGRA.yields]. exact (IH (S ii) (S k) x).
  - exact I.
Qed.

(** Along a chain of accepted trials the final radius is kept and the phase
    angle is that of the start plus [0.0]. *)
Lemma chain_keeps_parameters (x : PatchedConic.t)
      (ys : list PatchedConic.t) :
  restoration_chain lm orb self x ys ->
  Forall (fun y : PatchedConic.t =>
            PatchedConic.rf y = PatchedConic.rf x
            /\ PatchedConic.lam1 y = PatchedConic.lam1 x + 0) ys.
Proof.
  revert x. induction ys as [|y ys IH]; intros x; [constructor|].
  intros [[_ [k Hk]] Hrest]. specialize (Hk Continue).
  apply init_patched_conic_args in Hk as (_ & _ & Hl & Hrf).
  change (factory_lam1 (OfConic x) (0.0, SGRA.newton_step _ x))
    with (PatchedConic.lam1 x + 0) in Hl.
  change (factory_rf (OfConic x)) with (PatchedConic.rf x) in Hrf.
  constructor; [auto|].
  specialize (IH y Hrest).
  eapply Forall_impl; [|exact IH].
  cbn beta. intros z [Hz1 Hz2]. rewrite Hz1, Hz2, Hrf, Hl.
  split; [reflexivity | apply FloatFacts.add_zero_idem].
Qed.

End Optimizer.




(** C9: along the sequence of states [optimize_v0] yields, each state has a
    constraint strictly smaller in magnitude than the state before it (the
    input, for the first), and is what the factory builds from that state
    by perturbing the departure speed alone, by
    [dv0 = -beta * (g / dg_dv0)] with [beta] the initial damping factor
    halved [k] times for some [k >= 0]; every yielded state has the final
    radius of the input and its phase angle [lam1] (as a number: adding the
    perturbation [0.0] turns a negative zero into the positive one). *)
Theorem C9_yielded_states
        (lm : Np.Libm) (orb : Orbit.Ops) (pdb : nat -> session)
        (self : SGRA.t) (solution_x : PatchedConic.t) (max_iterations : Z) :
  let ys :=
    SGRA.yields
      (fst (SGRA.optimize_v0 lm orb pdb self solution_x max_iterations)) in
  restoration_chain lm orb self solution_x ys
  /\ Forall (fun y : PatchedConic.t =>
               PatchedConic.rf y = PatchedConic.rf solution_x
               /\ same_number (PatchedConic.lam1 y)
                              (PatchedConic.lam1 solution_x)) ys.
Proof.
  cbv zeta. unfold SGRA.optimize_v0.
  pose proof (loop_chain lm orb pdb self (Z.to_nat max_iterations) 0 0
                         solution_x) as Hchain.
  change (halved 0 (SGRA.beta0 self)) with (SGRA.beta0 self) in Hchain.
  split; [exact Hchain|].
  apply chain_keeps_parameters in Hchain.
  eapply Forall_impl; [|exact Hchain].
  cbn beta. intros y [Hrf Hlam]. split; [exact Hrf|].
  rewrite Hlam. apply FloatFacts.add_zero_same.
Qed.

(** The run of the script: six states are yielded with the default
    budget, and they form such a chain. *)
Lemma C9_witness :
  exists x0 : PatchedConic.t,
    init_patched_conic Scenario.lm Scenario.orb Quit Scenario.base dx_zero =
        Ok x0
    /\ let ys :=
         SGRA.yields
           (fst (SGRA.optimize_v0 Scenario.lm Scenario.orb Scenario.unattended
               SGRA.default x0
                                  100)) in
       List.length ys = 6%nat
       /\ restoration_chain Scenario.lm Scenario.orb SGRA.default x0 ys
       /\ Forall (fun y : PatchedConic.t =>
                    PatchedConic.rf y = PatchedConic.rf x0
                    /\ same_number (PatchedConic.lam1 y)
                                   (PatchedConic.lam1 x0)) ys.
Proof.
  destruct (init_patched_conic Scenario.lm Scenario.orb Quit Scenario.base
      dx_zero)
    as [x0|e] eqn:E.
  - exists x0. split; [reflexivity|]. cbv zeta. split.
    + vm_compute in E. inversion E. vm_compute. reflexivity.
    + exact (C9_yielded_states Scenario.lm Scenario.orb Scenario.unattended
               SGRA.default x0 100).
  - exfalso. vm_compute in E. discriminate E.
Defined.

(** C10: when the constraint of the input is within the tolerance,
    [|g| <= gtol], [optimize_v0] does nothing: it yields no state and calls
    the factory not once, and it holds its input at the end; in general the
    number of states it yields is at most [max_iterations] (none for a
    negative budget). *)
Theorem C10_converged_input_and_yield_bound
        (lm : Np.Libm) (orb : Orbit.Ops) (pdb : nat -> session)
        (self : SGRA.t) (solution_x : PatchedConic.t) (max_iterations : Z) :
  ((abs (PatchedConic.g solution_x) <=? SGRA.gtol self) = true ->
   fst (SGRA.optimize_v0 lm orb pdb self solution_x max_iterations) = []
   /\ SGRA.last (snd (SGRA.optimize_v0 lm orb pdb self solution_x
       max_iterations))
      = solution_x)
  /\ (Z.of_nat
        (List.length
           (SGRA.yields
              (fst (SGRA.optimize_v0 lm orb pdb self solution_x
                  max_iterations))))
      <= Z.max 0 max_iterations)%Z.
Proof.
  unfold SGRA.optimize_v0. split.
  - intros Hg. destruct (Z.to_nat max_iterations) as [|n]; [cbn; auto|].
    rewrite loop_step; cbv zeta. rewrite Hg. cbn. auto.
  - pose proof (loop_yields_le_calls lm orb pdb self
                  (Z.to_nat max_iterations) 0 (SGRA.beta0 self) solution_x).
    pose proof (loop_calls_bound lm orb pdb self (Z.to_nat max_iterations) 0
                  (SGRA.beta0 self) solution_x).
    lia.
Qed.

(** The transfer of the script with the final radius equal to its perilune
    radius meets the constraint exactly: nothing is yielded and the factory
    is not called. *)
Lemma C10_witness :
  exists x : PatchedConic.t,
    init_patched_conic Scenario.lm Scenario.orb Quit Scenario.base_met dx_zero
    = Ok x
    /\ (abs (PatchedConic.g x) <=? SGRA.gtol SGRA.default) = true
    /\ fst (SGRA.optimize_v0 Scenario.lm Scenario.orb Scenario.unattended
        SGRA.default x 100)
       = []
    /\ SGRA.last
         (snd (SGRA.optimize_v0 Scenario.lm Scenario.orb Scenario.unattended
             SGRA.default x 100))
       = x.
Proof.
  destruct (init_patched_conic Scenario.lm Scenario.orb Quit Scenario.base_met
                               dx_zero) as [x|e] eqn:E.
  - exists x. split; [reflexivity|].
    assert (Hg : (abs (PatchedConic.g x) <=? SGRA.gtol SGRA.default) = true)
      by (vm_compute in E; inversion E; vm_compute; reflexivity).
    split; [exact Hg|].
    exact (proj1 (C10_converged_input_and_yield_bound Scenario.lm
                    Scenario.orb Scenario.unattended SGRA.default x 100)
                 Hg).
  - exfalso. vm_compute in E. discriminate E.
Defined.

(** * Further properties *)

(** ** More binary64 facts: order, NaN, zeros *)

Module FloatOrder.

Lemma is_nan_SF (x : float) : is_nan x = true -> Prim2SF x = S754_nan.
Proof. intros H. unfold Prim2SF. now rewrite H. Qed.

Lemma SF_is_nan (x : float) : Prim2SF x = S754_nan -> is_nan x = true.
Proof.
  unfold Prim2SF. destruct (is_nan x); [reflexivity|].
  destruct (is_zero x); [discriminate|].
  destruct (is_infinity x); [discriminate|].
  destruct (Z.frexp x) as [r e].
  destruct (shr_fexp _ _ _ _ _) as [shr e'].
  destruct (shr_m shr); discriminate.
Qed.

Lemma SFltb_trans (x y z : spec_float) :
  SFcompare x y = Some Lt -> SFcompare y z = Some Lt ->
  SFcompare x z = Some Lt.
Proof.
  destruct x as [sx|sx| |sx mx ex], y as [sy|sy| |sy my ey],
           z as [sz|sz| |sz mz ez]; cbn;
    try discriminate; try reflexivity;
    try (destruct sx, sy, sz; cbn; congruence).
  destruct sx, sy, sz; cbn; try congruence;
    change (Pos.compare_cont Eq mx my) with (Pos.compare mx my);
    change (Pos.compare_cont Eq my mz) with (Pos.compare my mz);
    change (Pos.compare_cont Eq mx mz) with (Pos.compare mx mz);
    destruct (Z.compare_spec ex ey), (Z.compare_spec ey ez),
             (Z.compare_spec ex ez); subst; try lia; try congruence;
    destruct (Pos.compare_spec mx my), (Pos.compare_spec my mz),
             (Pos.compare_spec mx mz); subst; cbn; try lia; try congruence.
Qed.

Lemma ltb_trans (x y z : float) :
  (x <? y) = true -> (y <? z) = true -> (x <? z) = true.
Proof.
  rewrite !ltb_spec. unfold SFltb.
  destruct (SFcompare (Prim2SF x) (Prim2SF y)) as [[]|] eqn:E1;
    try discriminate.
  destruct (SFcompare (Prim2SF y) (Prim2SF z)) as [[]|] eqn:E2;
    try discriminate.
  now rewrite (SFltb_trans _ _ _ E1 E2).
Qed.

Lemma ltb_not_nan_r (x y : float) : (x <? y) = true -> is_nan y = false.
Proof.
  rewrite ltb_spec. unfold SFltb. intros H.
  destruct (is_nan y) eqn:E; [|reflexivity].
  rewrite (is_nan_SF y E) in H. destruct (Prim2SF x); discriminate.
Qed.

Lemma ltb_not_nan_l (x y : float) : (x <? y) = true -> is_nan x = false.
Proof.
  rewrite ltb_spec. unfold SFltb. intros H.
  destruct (is_nan x) eqn:E; [|reflexivity].
  rewrite (is_nan_SF x E) in H. discriminate.
Qed.

Lemma leb_not_nan_l (x y : float) : (x <=? y) = true -> is_nan x = false.
Proof.
  rewrite leb_spec. unfold SFleb. intros H.
  destruct (is_nan x) eqn:E; [|reflexivity].
  rewrite (is_nan_SF x E) in H. discriminate.
Qed.

Lemma ltb_asym (x y : float) : (x <? y) = true -> (y <? x) = false.
Proof.
  intros H. pose proof (FloatFacts.ltb_not_leb x y H) as H'.
  destruct (y <? x) eqn:E; [|reflexivity].
  apply FloatFacts.ltb_leb in E. congruence.
Qed.

(** Comparing equal to a finite nonzero float is being that float. *)
Lemma SFcompare_finite_eq (s : bool) (m : positive) (e : Z)
      (y : spec_float) :
  SFcompare (S754_finite s m e) y = Some Eq -> y = S754_finite s m e.
Proof.
  destruct y as [sy|sy| |sy my ey]; cbn;
    try (destruct s; discriminate); try (destruct s, sy; discriminate).
  destruct s, sy; try discriminate;
    destruct (Z.compare_spec e ey); try discriminate; subst;
    change (Pos.compare_cont Eq m my) with (Pos.compare m my);
    destruct (Pos.compare_spec m my); try discriminate; subst; reflexivity.
Qed.

Lemma leb_not_ltb_eq_l (a x : float) (s : bool) (m : positive) (e : Z) :
  Prim2SF a = S754_finite s m e ->
  (a <=? x) = true -> (a <? x) = false -> x = a.
Proof.
  intros Ha. rewrite leb_spec, ltb_spec, Ha. unfold SFleb, SFltb.
  destruct (SFcompare (S754_finite s m e) (Prim2SF x)) as [[]|] eqn:E;
    try discriminate.
  intros _ _. apply SFcompare_finite_eq in E.
  apply Prim2SF_inj. congruence.
Qed.

Lemma leb_not_ltb_eq_r (a x : float) (s : bool) (m : positive) (e : Z) :
  Prim2SF a = S754_finite s m e ->
  (x <=? a) = true -> (x <? a) = false -> x = a.
Proof.
  intros Ha. rewrite leb_spec, ltb_spec. unfold SFleb, SFltb.
  rewrite (FloatFacts.SFcompare_antisym (Prim2SF a) (Prim2SF x)), Ha.
  destruct (SFcompare (S754_finite s m e) (Prim2SF x)) as [[]|] eqn:E;
    cbn; try discriminate.
  intros _ _. apply SFcompare_finite_eq in E.
  apply Prim2SF_inj. congruence.
Qed.

(** [np.clip(x, -1.0, 1.0)], case by case. *)
Lemma clip_inside (x : float) : in_unit_range x -> Np.clip x (-1) 1 = x.
Proof.
  intros [Hlo Hhi]. pose proof (leb_not_nan_l _ _ Hhi) as Hn.
  unfold Np.clip, Np.maximum. rewrite Hn.
  assert (Hmax : (if -1 <? x then x else -1) = x).
  { destruct (-1 <? x) eqn:E; [reflexivity|].
    symmetry. eapply (leb_not_ltb_eq_l (-1) x); [|exact Hlo|exact E].
    vm_compute. reflexivity. }
  rewrite Hmax. unfold Np.minimum. rewrite Hn.
  destruct (x <? 1) eqn:E; [reflexivity|].
  symmetry. eapply (leb_not_ltb_eq_r 1 x); [|exact Hhi|exact E].
  vm_compute. reflexivity.
Qed.

Lemma clip_above (x : float) : (1 <? x) = true -> Np.clip x (-1) 1 = 1.
Proof.
  intros H. pose proof (ltb_not_nan_r _ _ H) as Hn.
  assert (Hlo : (-1 <? x) = true)
    by (apply (ltb_trans (-1) 1 x); [reflexivity | exact H]).
  unfold Np.clip, Np.maximum, Np.minimum. rewrite Hn, Hlo, Hn.
  now rewrite (ltb_asym _ _ H).
Qed.

Lemma clip_below (x : float) : (x <? -1) = true -> Np.clip x (-1) 1 = -1.
Proof.
  intros H. pose proof (ltb_not_nan_l _ _ H) as Hn.
  unfold Np.clip, Np.maximum. rewrite Hn, (ltb_asym _ _ H).
  reflexivity.
Qed.

(** Zeros. *)
Lemma eqb_zero_SF (z : float) :
  (z =? 0) = true -> exists s, Prim2SF z = S754_zero s.
Proof.
  rewrite FloatAxioms.eqb_spec. change (Prim2SF 0) with (S754_zero false).
  unfold SFeqb. destruct (Prim2SF z) as [s|s| |s m e]; cbn;
    try discriminate; try (destruct s; discriminate).
  intros _. now exists s.
Qed.

(** Adding a zero of either sign changes no float but the negative zero. *)
Lemma add_any_zero (x z : float) :
  x <> (-0) -> (z =? 0) = true -> x + z = x.
Proof.
  intros Hx Hz. destruct (eqb_zero_SF z Hz) as [s Hs].
  apply Prim2SF_inj. rewrite add_spec, Hs. unfold SF64add.
  destruct (Prim2SF x) as [sx|sx| |sx mx ex] eqn:E; cbn; try reflexivity.
  destruct sx, s; try reflexivity.
  exfalso. apply Hx. apply Prim2SF_inj. rewrite E. reflexivity.
Qed.

Lemma is_finite_SF (p : float) :
  is_finite p = true ->
  (exists s, Prim2SF p = S754_zero s)
  \/ (exists s m e, Prim2SF p = S754_finite s m e).
Proof.
  unfold is_finite, is_infinity. intros H.
  apply negb_true_iff, orb_false_iff in H as [Hn Hi].
  rewrite FloatAxioms.eqb_spec, abs_spec in Hi.
  change (Prim2SF infinity) with (S754_infinity false) in Hi.
  destruct (Prim2SF p) as [s|s| |s m e] eqn:E.
  - left. now exists s.
  - cbn in Hi. discriminate.
  - apply SF_is_nan in E. congruence.
  - right. now exists s, m, e.
Qed.

(** A finite number, negated and multiplied by zero, is a zero. *)
Lemma opp_mul_zero (p : float) :
  is_finite p = true -> ((- p) * 0 =? 0) = true.
Proof.
  intros H. rewrite FloatAxioms.eqb_spec, mul_spec, opp_spec.
  change (Prim2SF 0) with (S754_zero false).
  destruct (is_finite_SF p H) as [[s ->]|(s & m & e & ->)]; reflexivity.
Qed.

(** No magnitude is at or below a negative number, and nothing compares
    with a NaN. *)
Lemma abs_leb_negative (y t : float) :
  (t <? 0) = true -> (abs y <=? t) = false.
Proof.
  rewrite ltb_spec, leb_spec, abs_spec.
  change (Prim2SF 0) with (S754_zero false). unfold SFltb, SFleb.
  destruct (Prim2SF t) as [st|st| |st mt et],
           (Prim2SF y) as [sy|sy| |sy my ey];
    cbn; try discriminate; try reflexivity;
    try (destruct st; cbn; (discriminate || reflexivity)).
Qed.

Lemma leb_nan_r (y t : float) : is_nan t = true -> (y <=? t) = false.
Proof.
  intros H. rewrite leb_spec, (is_nan_SF t H). unfold SFleb.
  destruct (Prim2SF y); reflexivity.
Qed.

Lemma leb_nan_l (y t : float) : is_nan y = true -> (y <=? t) = false.
Proof.
  intros H. rewrite leb_spec, (is_nan_SF y H). reflexivity.
Qed.

Lemma ltb_nan_r (y t : float) : is_nan t = true -> (y <? t) = false.
Proof.
  intros H. rewrite ltb_spec, (is_nan_SF t H). unfold SFltb.
  destruct (Prim2SF y); reflexivity.
Qed.

Lemma abs_nan (y : float) : is_nan y = true -> is_nan (abs y) = true.
Proof.
  intros H. apply SF_is_nan. rewrite abs_spec, (is_nan_SF y H). reflexivity.
Qed.

End FloatOrder.

(** ** More on the restoration optimizer *)

Section OptimizerRuns.

Context (lm : Np.Libm) (orb : Orbit.Ops) (pdb : nat -> session)
        (self : SGRA.t).

Lemma halved_shift (n : nat) (b : float) :
  halved n (b * 0.5) = halved (S n) b.
Proof.
  induction n as [|n IH]; [reflexivity|].
  cbn [halved] in *. now rewrite IH.
Qed.

Lemma stuck_end_turn (n ii : nat) (beta : float) (c : SGRA.event)
      (evs : list SGRA.event) (fin : SGRA.final) :
  SGRA.calls (c :: evs) = c :: SGRA.calls evs ->
  stuck_end pdb n (S ii) (beta * 0.5) evs fin ->
  stuck_end pdb (S n) ii beta (c :: evs) fin.
Proof.
  unfold stuck_end. intros Hc H. rewrite Hc. cbn [List.length].
  destruct (SGRA.how fin).
  - exact H.
  - destruct H as [H3 H4]. rewrite H3, H4, halved_shift. auto.
  - destruct H as (He & Hpos & Hq & Hb).
    split; [exact He|]. split; [lia|]. split.
    + rewrite <- Hq. f_equal. lia.
    + rewrite Hb, halved_shift. f_equal. lia.
Qed.

(** A state whose constraint is NaN is never left: no trial compares below
    it.  The loop goes on halving the damping factor until the budget is
    used up or a debugger session is quit. *)
Lemma loop_nan (n ii : nat) (beta : float) (x : PatchedConic.t) :
  is_nan (PatchedConic.g x) = true ->
  SGRA.yields (fst (SGRA.loop lm orb pdb self n ii beta x)) = []
  /\ SGRA.last (snd (SGRA.loop lm orb pdb self n ii beta x)) = x
  /\ stuck_end pdb n ii beta (fst (SGRA.loop lm orb pdb self n ii beta x))
               (snd (SGRA.loop lm orb pdb self n ii beta x)).
Proof.
  intros Hnan. pose proof (FloatOrder.abs_nan _ Hnan) as Habs.
  revert ii beta. induction n as [|n IH]; intros ii beta;
    [cbn; unfold stuck_end; cbn; auto|].
  rewrite loop_step; cbv zeta.
  rewrite (FloatOrder.leb_nan_l _ (SGRA.gtol self) Habs).
  destruct (IH (S ii) (beta * 0.5)) as (H1 & H2 & H3).
  destruct (init_patched_conic lm orb (pdb ii) (OfConic x) _)
    as [xt|[msg|]] eqn:Hres.
  - rewrite (FloatOrder.ltb_nan_r (abs (PatchedConic.g xt)) _ Habs).
    cbn [fst snd SGRA.yields].
    split; [exact H1|]. split; [exact H2|].
    now apply stuck_end_turn.
  - cbn [fst snd SGRA.yields].
    split; [exact H1|]. split; [exact H2|].
    now apply stuck_end_turn.
  - apply init_patched_conic_quit in Hres as [_ Hq].
    unfold stuck_end.
    cbn [fst snd SGRA.yields SGRA.calls List.length SGRA.how SGRA.last
           SGRA.last_beta].
    repeat split; [lia|].
    rewrite <- Hq. f_equal. lia.
Qed.

(** When no state meets the tolerance the loop never reaches its [break]:
    it ends with the budget used up or with a debugger session quit. *)
Lemma loop_no_break (n ii : nat) (beta : float) (x : PatchedConic.t) :
  (forall y : PatchedConic.t,
      (abs (PatchedConic.g y) <=? SGRA.gtol self) = false) ->
  match SGRA.how (snd (SGRA.loop lm orb pdb self n ii beta x)) with
  | SGRA.Converged => False
  | SGRA.Exhausted =>
      List.length (SGRA.calls (fst (SGRA.loop lm orb pdb self n ii beta x)))
      = n
  | SGRA.Raised e =>
      e = BdbQuit
      /\ (0 < List.length
                (SGRA.calls (fst (SGRA.loop lm orb pdb self n ii beta x))))%nat
      /\ pdb (ii + List.length
                     (SGRA.calls
                        (fst (SGRA.loop lm orb pdb self n ii beta x))) - 1)%nat
         = Quit
  end.
Proof.
  intros Htol.
  destruct (loop_final lm orb pdb self n ii beta x) as [_ H]. cbv zeta in H.
  destruct (SGRA.how _).
  - now rewrite Htol in H.
  - exact H.
  - tauto.
Qed.

(** A larger budget continues the run of a smaller one. *)
Lemma loop_prefix (n m ii : nat) (beta : float) (x : PatchedConic.t) :
  exists rest : list SGRA.event,
    fst (SGRA.loop lm orb pdb self (n + m) ii beta x)
    = fst (SGRA.loop lm orb pdb self n ii beta x) ++ rest.
Proof.
  revert ii beta x. induction n as [|n IH]; intros ii beta x.
  - eexists. reflexivity.
  - change (S n + m)%nat with (S (n + m)). rewrite !loop_step; cbv zeta.
    destruct (abs (PatchedConic.g x) <=? SGRA.gtol self);
      [exists []; reflexivity|].
    destruct (init_patched_conic lm orb (pdb ii) (OfConic x) _)
      as [xt|[msg|]].
    + destruct (abs (PatchedConic.g xt) <? abs (PatchedConic.g x)).
      * destruct (IH (S ii) (SGRA.beta0 self) xt) as [rest Hr].
        exists rest. cbn [fst]. now rewrite Hr.
      * destruct (IH (S ii) (beta * 0.5) x) as [rest Hr].
        exists rest. cbn [fst]. now rewrite Hr.
    + destruct (IH (S ii) (beta * 0.5) x) as [rest Hr].
      exists rest. cbn [fst]. now rewrite Hr.
    + exists []. reflexivity.
Qed.

Lemma pair_eta {A B : Type} (p q : A * B) :
  fst p = fst q -> snd p = snd q -> p = q.
Proof. destruct p, q; cbn; congruence. Qed.

(** A run that ended at the [break] is the run for every larger budget. *)
Lemma loop_converged_stable (n m ii : nat) (beta : float)
      (x : PatchedConic.t) :
  SGRA.how (snd (SGRA.loop lm orb pdb self n ii beta x)) = SGRA.Converged ->
  SGRA.loop lm orb pdb self (n + m) ii beta x
  = SGRA.loop lm orb pdb self n ii beta x.
Proof.
  revert ii beta x. induction n as [|n IH]; intros ii beta x; [discriminate|].
  change (S n + m)%nat with (S (n + m)). rewrite !loop_step; cbv zeta.
  destruct (abs (PatchedConic.g x) <=? SGRA.gtol self); [reflexivity|].
  destruct (init_patched_conic lm orb (pdb ii) (OfConic x) _)
    as [xt|[msg|]].
  - destruct (abs (PatchedConic.g xt) <? abs (PatchedConic.g x));
      cbn [snd]; intros H; now rewrite (IH _ _ _ H).
  - cbn [snd]; intros H; now rewrite (IH _ _ _ H).
  - discriminate.
Qed.

(** Of the input followed by the yielded states, all but the last are above
    the tolerance. *)
Lemma loop_above_tolerance (n ii : nat) (beta : float)
      (x : PatchedConic.t) :
  Forall (fun s : PatchedConic.t =>
            (abs (PatchedConic.g s) <=? SGRA.gtol self) = false)
         (removelast
            (x :: SGRA.yields
                    (fst (SGRA.loop lm orb pdb self n ii beta x)))).
Proof.
  revert ii beta x. induction n as [|n IH]; intros ii beta x; [constructor|].
  rewrite loop_step; cbv zeta.
  destruct (abs (PatchedConic.g x) <=? SGRA.gtol self) eqn:Hx;
    [constructor|].
  destruct (init_patched_conic lm orb (pdb ii) (OfConic x) _)
    as [xt|[msg|]].
  - destruct (abs (PatchedConic.g xt) <? abs (PatchedConic.g x)).
    + cbn [fst SGRA.yields].
      change (removelast (x :: xt :: ?l)) with (x :: removelast (xt :: l)).
      constructor; [exact Hx | apply IH].
    + cbn [fst SGRA.yields]. apply IH.
  - cbn [fst SGRA.yields]. apply IH.
  - constructor.
Qed.

(** A chain of accepted trials is sorted by decreasing magnitude of the
    constraint, the start included. *)
Lemma chain_sorted (x : PatchedConic.t) (ys : list PatchedConic.t) :
  restoration_chain lm orb self x ys -> StronglySorted improves (x :: ys).
Proof.
  revert x. induction ys as [|y ys IH]; intros x Hc.
  - constructor; constructor.
  - destruct Hc as [[Hlt _] Hrest]. specialize (IH y Hrest).
    constructor; [exact IH|].
    constructor; [exact Hlt|].
    apply StronglySorted_inv in IH as [_ Hall].
    eapply Forall_impl; [|exact Hall].
    intros z Hz. unfold improves in *.
    exact (FloatOrder.ltb_trans _ _ _ Hz Hlt).
Qed.

(** Every state of a chain of accepted trials is a state the factory
    built. *)
Lemma chain_factory_built (x : PatchedConic.t) (ys : list PatchedConic.t) :
  restoration_chain lm orb self x ys -> Forall (factory_built lm orb) ys.
Proof.
  revert x. induction ys as [|y ys IH]; intros x Hc; [constructor|].
  destruct Hc as [[_ [k Hk]] Hrest]. specialize (Hk Continue).
  constructor; [|exact (IH y Hrest)].
  pose proof (init_patched_conic_args lm orb _ _ _ _ Hk)
    as (Hdep & Harr & Hl & _).
  apply init_patched_conic_ok in Hk as [Hnan Hinit].
  apply init_inv in Hinit as (_ & Hgrad & Ha).
  unfold factory_built. rewrite Harr at 1 2.
  repeat split; try assumption.
  rewrite Harr, Hdep, Hl. reflexivity.
Qed.

End OptimizerRuns.

(** X1: a state whose constraint is NaN is never improved on.  From such a
    state [optimize_v0] yields nothing, never reaches its [break] and ends
    holding its input, no factory call being accepted, whatever it returns.
    It ends with its whole budget spent, after exactly [max_iterations]
    factory calls and with the damping factor halved once for each, or with
    [bdb.BdbQuit] from the debugger of its last factory call, the damping
    factor halved once for each call before that.  When every debugger
    session is continued it is the budget that ends the run. *)
Theorem X1_nan_constraint_never_improved
        (lm : Np.Libm) (orb : Orbit.Ops) (pdb : nat -> session)
        (self : SGRA.t) (solution_x : PatchedConic.t) (max_iterations : Z) :
  is_nan (PatchedConic.g solution_x) = true ->
  let evs :=
    fst (SGRA.optimize_v0 lm orb pdb self solution_x max_iterations) in
  let fin :=
    snd (SGRA.optimize_v0 lm orb pdb self solution_x max_iterations) in
  SGRA.yields evs = []
  /\ SGRA.last fin = solution_x
  /\ match SGRA.how fin with
     | SGRA.Converged => False
     | SGRA.Exhausted =>
         List.length (SGRA.calls evs) = Z.to_nat max_iterations
         /\ SGRA.last_beta fin
            = halved (Z.to_nat max_iterations) (SGRA.beta0 self)
     | SGRA.Raised e =>
         e = BdbQuit
         /\ (0 < List.length (SGRA.calls evs))%nat
         /\ pdb (List.length (SGRA.calls evs) - 1)%nat = Quit
         /\ SGRA.last_beta fin
            = halved (List.length (SGRA.calls evs) - 1) (SGRA.beta0 self)
     end
  /\ (all_continued pdb ->
      List.length (SGRA.calls evs) = Z.to_nat max_iterations
      /\ fin = SGRA.mkFinal SGRA.Exhausted solution_x
                 (halved (Z.to_nat max_iterations) (SGRA.beta0 self))).
Proof.
  intros Hnan. cbv zeta. unfold SGRA.optimize_v0.
  destruct (loop_nan lm orb pdb self (Z.to_nat max_iterations) 0
              (SGRA.beta0 self) solution_x Hnan) as (H1 & H2 & H3).
  unfold stuck_end in H3. cbn [Nat.add] in H3.
  split; [exact H1|]. split; [exact H2|]. split; [exact H3|].
  intros Hc. revert H2 H3.
  destruct (snd (SGRA.loop lm orb pdb self (Z.to_nat max_iterations) 0
                           (SGRA.beta0 self) solution_x))
    as [[| |e] l b]; cbn [SGRA.how SGRA.last SGRA.last_beta].
  - tauto.
  - intros -> [-> ->]. auto.
  - intros _ (_ & _ & Hq & _). rewrite Hc in Hq. discriminate Hq.
Qed.

(** The arrival state at a radius the departure orbit does not reach, given
    to the constructor directly: every field that depends on it is NaN, and
    so is the step of every trial, which takes the factory into its
    debugger.  With every session continued the default run of 100 turns
    yields nothing and spends its budget; without a terminal it ends with
    [bdb.BdbQuit] in its first call. *)
Lemma X1_witness :
  exists x : PatchedConic.t,
    PatchedConic.init Scenario.lm Scenario.depart Edge.arrive_far
                      (RefLibm.pi / 2) 1937000 = Ok x
    /\ is_nan (PatchedConic.g x) = true
    /\ (SGRA.yields
          (fst (SGRA.optimize_v0 Scenario.lm Scenario.orb Scenario.attended
                                 SGRA.default x 100))
        = []
        /\ List.length
             (SGRA.calls
                (fst (SGRA.optimize_v0 Scenario.lm Scenario.orb
                                       Scenario.attended SGRA.default x
                                       100)))
           = 100%nat
        /\ snd (SGRA.optimize_v0 Scenario.lm Scenario.orb Scenario.attended
                                 SGRA.default x 100)
           = SGRA.mkFinal SGRA.Exhausted x (halved 100 1))
    /\ (List.length
          (SGRA.calls
             (fst (SGRA.optimize_v0 Scenario.lm Scenario.orb
                                    Scenario.unattended SGRA.default x 100)))
        = 1%nat
        /\ snd (SGRA.optimize_v0 Scenario.lm Scenario.orb
                                 Scenario.unattended SGRA.default x 100)
           = SGRA.mkFinal (SGRA.Raised BdbQuit) x 1).
Proof.
  destruct (PatchedConic.init Scenario.lm Scenario.depart Edge.arrive_far
                              (RefLibm.pi / 2) 1937000) as [x|e] eqn:E.
  - exists x. split; [reflexivity|].
    assert (Hnan : is_nan (PatchedConic.g x) = true)
      by (vm_compute in E; inversion E; vm_compute; reflexivity).
    split; [exact Hnan|]. split.
    + destruct (X1_nan_constraint_never_improved Scenario.lm Scenario.orb
                  Scenario.attended SGRA.default x 100 Hnan)
        as (Hy & _ & _ & Hall).
      destruct (Hall (fun _ => eq_refl)) as [Hcalls Hfin].
      split; [exact Hy|]. split; [exact Hcalls | exact Hfin].
    + vm_compute in E. inversion E. split; vm_compute; reflexivity.
  - exfalso. vm_compute in E. discriminate E.
Defined.

(** X2: the sequence [optimize_v0] produces under a budget is a prefix of
    the one it produces under any larger budget, for the factory calls and
    for the yielded states: raising [max_iterations] only continues the
    run. *)
Theorem X2_larger_budget_extends_run
        (lm : Np.Libm) (orb : Orbit.Ops) (pdb : nat -> session)
        (self : SGRA.t)
        (solution_x : PatchedConic.t) (budget larger : Z) :
  (budget <= larger)%Z ->
  exists rest : list SGRA.event,
    fst (SGRA.optimize_v0 lm orb pdb self solution_x larger)
    = fst (SGRA.optimize_v0 lm orb pdb self solution_x budget) ++ rest
    /\ SGRA.yields (fst (SGRA.optimize_v0 lm orb pdb self solution_x larger))
       = SGRA.yields (fst (SGRA.optimize_v0 lm orb pdb self solution_x budget))
         ++ SGRA.yields rest.
Proof.
  intros Hle. unfold SGRA.optimize_v0.
  replace (Z.to_nat larger)
    with (Z.to_nat budget + (Z.to_nat larger - Z.to_nat budget))%nat by lia.
  destruct (loop_prefix lm orb pdb self (Z.to_nat budget)
              (Z.to_nat larger - Z.to_nat budget) 0 (SGRA.beta0 self)
              solution_x) as [rest Hr].
  exists rest. split; [exact Hr|]. rewrite Hr.
  generalize (fst (SGRA.loop lm orb pdb self (Z.to_nat budget) 0
                             (SGRA.beta0 self) solution_x)).
  intros l. induction l as [|[b d p r|y] l IH]; cbn; [reflexivity|exact IH|].
  now rewrite IH.
Qed.

(** The run of the script under a budget of 12, which yields one state, and
    under the default budget of 100. *)
Lemma X2_witness :
  exists x : PatchedConic.t,
    init_patched_conic Scenario.lm Scenario.orb Quit Scenario.base dx_zero =
        Ok x
    /\ List.length
         (SGRA.yields
            (fst (SGRA.optimize_v0 Scenario.lm Scenario.orb
                Scenario.unattended SGRA.default x
                                   12))) = 1%nat
    /\ exists rest : list SGRA.event,
        fst (SGRA.optimize_v0 Scenario.lm Scenario.orb Scenario.unattended
            SGRA.default x 100)
        = fst (SGRA.optimize_v0 Scenario.lm Scenario.orb Scenario.unattended
            SGRA.default x 12)
          ++ rest
        /\ SGRA.yields
             (fst (SGRA.optimize_v0 Scenario.lm Scenario.orb
                 Scenario.unattended SGRA.default x
                                    100))
           = SGRA.yields
               (fst (SGRA.optimize_v0 Scenario.lm Scenario.orb
                   Scenario.unattended SGRA.default
                                      x 12))
             ++ SGRA.yields rest.
Proof.
  destruct (init_patched_conic Scenario.lm Scenario.orb Quit Scenario.base
      dx_zero)
    as [x|e] eqn:E.
  - exists x. split; [reflexivity|]. split.
    + vm_compute in E. inversion E. vm_compute. reflexivity.
    + apply (X2_larger_budget_extends_run Scenario.lm Scenario.orb
               Scenario.unattended SGRA.default x 12 100). lia.
  - exfalso. vm_compute in E. discriminate E.
Defined.

(** X3: once [optimize_v0] has ended at its [break] under some budget, a
    larger budget changes nothing: the same factory calls, the same yielded
    states, the same final state and damping factor. *)
Theorem X3_converged_run_ignores_budget
        (lm : Np.Libm) (orb : Orbit.Ops) (pdb : nat -> session)
        (self : SGRA.t)
        (solution_x : PatchedConic.t) (budget larger : Z) :
  (budget <= larger)%Z ->
  SGRA.how (snd (SGRA.optimize_v0 lm orb pdb self solution_x budget))
  = SGRA.Converged ->
  SGRA.optimize_v0 lm orb pdb self solution_x larger
  = SGRA.optimize_v0 lm orb pdb self solution_x budget.
Proof.
  intros Hle Hc. unfold SGRA.optimize_v0 in *.
  replace (Z.to_nat larger)
    with (Z.to_nat budget + (Z.to_nat larger - Z.to_nat budget))%nat by lia.
  now apply loop_converged_stable.
Qed.

(** With a tolerance of 1849 km the run of the script meets the tolerance
    with its first yielded state and ends at the [break] in its twelfth
    turn; the default budget gives the same run. *)
Lemma X3_witness :
  exists x : PatchedConic.t,
    init_patched_conic Scenario.lm Scenario.orb Quit Scenario.base dx_zero =
        Ok x
    /\ SGRA.how (snd (SGRA.optimize_v0 Scenario.lm Scenario.orb
        Scenario.unattended Edge.loose x
                                       12)) = SGRA.Converged
    /\ SGRA.optimize_v0 Scenario.lm Scenario.orb Scenario.unattended
        Edge.loose x 100
       = SGRA.optimize_v0 Scenario.lm Scenario.orb Scenario.unattended
           Edge.loose x 12.
Proof.
  destruct (init_patched_conic Scenario.lm Scenario.orb Quit Scenario.base
      dx_zero)
    as [x|e] eqn:E.
  - exists x. split; [reflexivity|].
    assert (Hc : SGRA.how (snd (SGRA.optimize_v0 Scenario.lm Scenario.orb
        Scenario.unattended
                                                 Edge.loose x 12))
                 = SGRA.Converged)
      by (vm_compute in E; inversion E; vm_compute; reflexivity).
    split; [exact Hc|].
    apply (X3_converged_run_ignores_budget Scenario.lm Scenario.orb
             Scenario.unattended Edge.loose x 12 100); [lia | exact Hc].
  - exfalso. vm_compute in E. discriminate E.
Defined.

(** X4: [optimize_v0] never goes on from a state that meets the tolerance:
    of its input followed by the states it yields, every one but the last
    has [|g| <= gtol] false.  So only the last yielded state can be within
    tolerance. *)
Theorem X4_only_last_state_within_tolerance
        (lm : Np.Libm) (orb : Orbit.Ops) (pdb : nat -> session)
        (self : SGRA.t)
        (solution_x : PatchedConic.t) (max_iterations : Z) :
  Forall (fun s : PatchedConic.t =>
            (abs (PatchedConic.g s) <=? SGRA.gtol self) = false)
         (removelast
            (solution_x
               :: SGRA.yields
                    (fst (SGRA.optimize_v0 lm orb pdb self solution_x
                                           max_iterations)))).
Proof.
  unfold SGRA.optimize_v0. apply loop_above_tolerance.
Qed.

(** X5: the input followed by the states [optimize_v0] yields is sorted by
    strictly decreasing [|g|], every state against every later one: each
    yielded state improves on the input and on all states yielded before
    it, so the last yielded state is the best. *)
Theorem X5_yields_strictly_decreasing
        (lm : Np.Libm) (orb : Orbit.Ops) (pdb : nat -> session)
        (self : SGRA.t)
        (solution_x : PatchedConic.t) (max_iterations : Z) :
  StronglySorted improves
    (solution_x
       :: SGRA.yields
            (fst (SGRA.optimize_v0 lm orb pdb self solution_x max_iterations))).
Proof.
  unfold SGRA.optimize_v0. apply (chain_sorted lm orb self).
  exact (loop_chain lm orb pdb self (Z.to_nat max_iterations) 0 0
           solution_x).
Qed.

(** X6: every state [optimize_v0] yields is a state the factory built: the
    speed of its arrival orbit is not NaN, its arrival orbit passed the
    guard of the constructor, its arrival orbit is the state of its own
    departure orbit at the intercept radius of its own phase angle, and its
    sensitivities are those of its own geometry, whatever the input state
    was. *)
Theorem X6_yields_are_factory_built
        (lm : Np.Libm) (orb : Orbit.Ops) (pdb : nat -> session)
        (self : SGRA.t)
        (solution_x : PatchedConic.t) (max_iterations : Z) :
  Forall (factory_built lm orb)
         (SGRA.yields
            (fst (SGRA.optimize_v0 lm orb pdb self solution_x max_iterations))).
Proof.
  unfold SGRA.optimize_v0.
  apply (chain_factory_built lm orb self solution_x).
  exact (loop_chain lm orb pdb self (Z.to_nat max_iterations) 0 0
           solution_x).
Qed.

(** X7: with a tolerance that is negative or NaN the [break] is never
    taken, whatever the states are: [optimize_v0] ends only with its whole
    budget used, one factory call for each turn, or with [bdb.BdbQuit] from
    the debugger of its last factory call.  When every debugger session is
    continued it always uses its whole budget. *)
Theorem X7_unmeetable_tolerance_never_breaks
        (lm : Np.Libm) (orb : Orbit.Ops) (pdb : nat -> session)
        (self : SGRA.t) (solution_x : PatchedConic.t) (max_iterations : Z) :
  (SGRA.gtol self <? 0) = true \/ is_nan (SGRA.gtol self) = true ->
  let evs :=
    fst (SGRA.optimize_v0 lm orb pdb self solution_x max_iterations) in
  let fin :=
    snd (SGRA.optimize_v0 lm orb pdb self solution_x max_iterations) in
  match SGRA.how fin with
  | SGRA.Converged => False
  | SGRA.Exhausted =>
      List.length (SGRA.calls evs) = Z.to_nat max_iterations
  | SGRA.Raised e =>
      e = BdbQuit
      /\ (0 < List.length (SGRA.calls evs))%nat
      /\ pdb (List.length (SGRA.calls evs) - 1)%nat = Quit
  end
  /\ (all_continued pdb ->
      SGRA.how fin = SGRA.Exhausted
      /\ List.length (SGRA.calls evs) = Z.to_nat max_iterations).
Proof.
  intros Htol. cbv zeta. unfold SGRA.optimize_v0.
  assert (H : forall y : PatchedConic.t,
             (abs (PatchedConic.g y) <=? SGRA.gtol self) = false).
  { intros y. destruct Htol as [Hneg|Hnan].
    - now apply FloatOrder.abs_leb_negative.
    - now apply FloatOrder.leb_nan_r. }
  pose proof (loop_no_break lm orb pdb self (Z.to_nat max_iterations) 0
                (SGRA.beta0 self) solution_x H) as Hend.
  cbn [Nat.add] in Hend.
  split; [exact Hend|].
  intros Hc. destruct (SGRA.how _).
  - contradiction.
  - auto.
  - destruct Hend as (_ & _ & Hq). rewrite Hc in Hq. discriminate Hq.
Qed.

(** With a tolerance of -1 even the state that meets the constraint exactly
    makes the optimizer spend its 100 turns, when every debugger session is
    continued; from the state of the script with a final radius of one
    metre, whose first trial does not reach the intercept radius, the run
    without a terminal ends with [bdb.BdbQuit] in its first call. *)
Lemma X7_witness :
  (exists x : PatchedConic.t,
      init_patched_conic Scenario.lm Scenario.orb Quit Scenario.base_met
                         dx_zero = Ok x
      /\ (PatchedConic.g x =? 0) = true
      /\ SGRA.how (snd (SGRA.optimize_v0 Scenario.lm Scenario.orb
                                         Scenario.attended Edge.negative x
                                         100))
         = SGRA.Exhausted
      /\ List.length
           (SGRA.calls
              (fst (SGRA.optimize_v0 Scenario.lm Scenario.orb
                                     Scenario.attended Edge.negative x
                                     100)))
         = 100%nat)
  /\ (exists y : PatchedConic.t,
        init_patched_conic Scenario.lm Scenario.orb Quit Scenario.base_low
                           dx_zero = Ok y
        /\ SGRA.how (snd (SGRA.optimize_v0 Scenario.lm Scenario.orb
                                           Scenario.unattended
                                           Edge.negative y 100))
           = SGRA.Raised BdbQuit
        /\ List.length
             (SGRA.calls
                (fst (SGRA.optimize_v0 Scenario.lm Scenario.orb
                                       Scenario.unattended Edge.negative y
                                       100)))
           = 1%nat).
Proof.
  split.
  - destruct (init_patched_conic Scenario.lm Scenario.orb Quit
                                 Scenario.base_met dx_zero)
      as [x|e] eqn:E; [|exfalso; vm_compute in E; discriminate E].
    exists x. split; [reflexivity|]. split.
    + vm_compute in E. inversion E. vm_compute. reflexivity.
    + apply (X7_unmeetable_tolerance_never_breaks Scenario.lm Scenario.orb
               Scenario.attended Edge.negative x 100).
      * left. vm_compute. reflexivity.
      * intros ii. reflexivity.
  - destruct (init_patched_conic Scenario.lm Scenario.orb Quit
                                 Scenario.base_low dx_zero)
      as [y|e] eqn:E; [|exfalso; vm_compute in E; discriminate E].
    exists y. split; [reflexivity|].
    vm_compute in E. inversion E. split; vm_compute; reflexivity.
Defined.


(** ** More on the constructor, the factory and the line search *)

Section FactoryLaws.

Context (lm : Np.Libm) (orb : Orbit.Ops) (dbg : session).

(** The factory reads its first argument through its tuple only. *)
Lemma init_patched_conic_tuple (a b : solution) (dx : float * float) :
  solution_tuple a = solution_tuple b ->
  init_patched_conic lm orb dbg a dx = init_patched_conic lm orb dbg b dx.
Proof.
  intros H. unfold init_patched_conic. now rewrite H.
Qed.

Lemma init_patched_conic_built (solution_x : solution) (dx : float * float)
      (s : PatchedConic.t) :
  init_patched_conic lm orb dbg solution_x dx = Ok s -> factory_built lm orb s.
Proof.
  intros Hs.
  pose proof (init_patched_conic_args lm orb _ _ _ _ Hs)
    as (Hdep & Harr & Hl & _).
  apply init_patched_conic_ok in Hs as [Hnan Hinit].
  apply init_inv in Hinit as (_ & Hgrad & Ha).
  unfold factory_built. rewrite Harr at 1 2.
  repeat split; try assumption.
  rewrite Harr, Hdep, Hl. reflexivity.
Qed.

(** The tuple of a state the factory built is the tuple of its base, moved
    by the perturbation. *)
Lemma built_tuple (solution_x : solution) (dx : float * float)
      (s : PatchedConic.t) :
  stores_arguments orb ->
  init_patched_conic lm orb dbg solution_x dx = Ok s ->
  solution_tuple (OfConic s) = solution_tuple (moved solution_x dx).
Proof.
  intros Hstore Hs.
  pose proof (init_patched_conic_args lm orb _ _ _ _ Hs)
    as (Hdep & _ & Hl & Hrf).
  cbn [solution_tuple]. rewrite Hdep, Hl, Hrf.
  unfold factory_depart, factory_lam1, factory_rf, moved.
  destruct (solution_tuple solution_x) as [[[[r0 v0] phi0] l0] rf0].
  destruct (Hstore PatchedConic.mu_earth r0 (v0 + snd dx) phi0)
    as (-> & -> & ->).
  reflexivity.
Qed.

(** A state the factory built is rebuilt by a step that is a zero in both
    entries, of either sign. *)
Lemma factory_zero_step (dbg' : session) (solution_x : solution)
      (dx : float * float) (s : PatchedConic.t) (z1 z2 : float) :
  stores_arguments orb ->
  init_patched_conic lm orb dbg solution_x dx = Ok s ->
  Orbit.v (PatchedConic.depart s) <> (-0) ->
  PatchedConic.lam1 s <> (-0) ->
  (z1 =? 0) = true -> (z2 =? 0) = true ->
  init_patched_conic lm orb dbg' (OfConic s) (z1, z2) = Ok s.
Proof.
  intros Hstore Hs Hv Hlam Hz1 Hz2.
  apply (init_patched_conic_session lm orb dbg dbg').
  pose proof (init_patched_conic_args lm orb _ _ _ _ Hs)
    as (Hdep & _ & Hl & Hrf).
  transitivity (init_patched_conic lm orb dbg solution_x dx); [|exact Hs].
  unfold init_patched_conic at 1. cbn [solution_tuple fst snd].
  rewrite (FloatOrder.add_any_zero _ z2 Hv Hz2).
  rewrite (FloatOrder.add_any_zero _ z1 Hlam Hz1).
  rewrite Hdep, Hl, Hrf.
  unfold init_patched_conic, factory_depart, factory_lam1, factory_rf.
  destruct (solution_tuple solution_x) as [[[[r0 v0] phi0] l0] rf0].
  destruct (Hstore PatchedConic.mu_earth r0 (v0 + snd dx) phi0)
    as (-> & -> & ->).
  reflexivity.
Qed.

(** The two arcsines of the constructor. *)
Lemma init_arcsines (depart arrive : Orbit.t) (lam1 rf : float)
      (s : PatchedConic.t) :
  PatchedConic.init lm depart arrive lam1 rf = Ok s ->
  PatchedConic.gam1 s
  = Np.arcsin lm (Np.clip (PatchedConic.sg1_raw lm arrive lam1) (-1) 1)
  /\ PatchedConic.eps s
     = Np.arcsin lm
         (Np.clip (PatchedConic.seps2_raw lm arrive lam1
                     (PatchedConic.gam1 s) (PatchedConic.v s)) (-1) 1).
Proof.
  intros Hs. apply init_inv in Hs as (Hg & _ & Ha).
  unfold PatchedConic.init_geometry in Hg. rewrite Ha in Hg.
  inversion Hg as [Hgeo]. split; reflexivity.
Qed.

Lemma clip_cases (raw : float) :
  clamp_cases lm raw (Np.arcsin lm (Np.clip raw (-1) 1)).
Proof.
  unfold clamp_cases. repeat split; intros H.
  - now rewrite FloatOrder.clip_inside.
  - now rewrite FloatOrder.clip_above.
  - now rewrite FloatOrder.clip_below.
  - now rewrite FloatFacts.clip_nan.
Qed.

End FactoryLaws.

(** X8: every state [init_patched_conic] returns has an arrival orbit whose
    speed is not NaN and which passed the guard [a <= 0] of the
    constructor; its arrival orbit is [depart.at(r1, '+')] for its own
    departure orbit and the intercept radius of its own phase angle, and its
    sensitivities are those [compute_gradients] derives from its own
    geometry. *)
Theorem X8_factory_result_invariant
        (lm : Np.Libm) (orb : Orbit.Ops) (dbg : session)
        (solution_x : solution) (dx : float * float) (s : PatchedConic.t) :
  init_patched_conic lm orb dbg solution_x dx = Ok s -> factory_built lm orb s.
Proof.
  apply init_patched_conic_built.
Qed.

Lemma X8_witness :
  exists s : PatchedConic.t,
    init_patched_conic Scenario.lm Scenario.orb Quit Scenario.base dx_zero =
        Ok s
    /\ factory_built Scenario.lm Scenario.orb s.
Proof.
  destruct (init_patched_conic Scenario.lm Scenario.orb Quit Scenario.base
      dx_zero)
    as [s|e] eqn:E.
  - exists s. split; [reflexivity|].
    exact (X8_factory_result_invariant Scenario.lm Scenario.orb Quit
             Scenario.base dx_zero s E).
  - exfalso. vm_compute in E. discriminate E.
Defined.

(** X9: the factory depends on a base state only through its design point.
    When the [Orbit] constructor keeps the radius, speed and flight-path
    angle it is given, perturbing a state the factory built from
    [solution_x] and [dx1] by [dx2] gives what the factory gives for the
    tuple of [solution_x] moved by [dx1], perturbed by [dx2]: the result, or
    the same error.  The arrival orbit and the sensitivities of the state
    play no part. *)
Theorem X9_factory_steps_compose
        (lm : Np.Libm) (orb : Orbit.Ops) (dbg1 dbg : session)
        (solution_x : solution) (dx1 dx2 : float * float)
        (s : PatchedConic.t) :
  stores_arguments orb ->
  init_patched_conic lm orb dbg1 solution_x dx1 = Ok s ->
  init_patched_conic lm orb dbg (OfConic s) dx2
  = init_patched_conic lm orb dbg (moved solution_x dx1) dx2.
Proof.
  intros Hstore Hs. apply init_patched_conic_tuple.
  exact (built_tuple lm orb _ _ _ _ Hstore Hs).
Qed.

(** The state of the script perturbed by 1 m/s and a milliradian. *)
Lemma X9_witness :
  exists s : PatchedConic.t,
    init_patched_conic Scenario.lm Scenario.orb Quit Scenario.base dx_zero =
        Ok s
    /\ init_patched_conic Scenario.lm Scenario.orb Quit (OfConic s) (0.001, 1)
       = init_patched_conic Scenario.lm Scenario.orb Quit
           (moved Scenario.base dx_zero) (0.001, 1).
Proof.
  destruct (init_patched_conic Scenario.lm Scenario.orb Quit Scenario.base
      dx_zero)
    as [s|e] eqn:E.
  - exists s. split; [reflexivity|].
    apply (X9_factory_steps_compose Scenario.lm Scenario.orb Quit Quit
             Scenario.base dx_zero (0.001, 1) s).
    + intros mu r v phi. repeat split; reflexivity.
    + exact E.
  - exfalso. vm_compute in E. discriminate E.
Defined.

(** X10: the factory moves the design vector by its perturbation.  When the
    [Orbit] constructor keeps the speed it is given, the attribute [x]
    (phase angle, departure speed) of the state built from a constructed
    state [s] and [dx] is that of [s] plus [dx], entry by entry. *)
Theorem X10_factory_moves_design_vector
        (lm : Np.Libm) (orb : Orbit.Ops) (dbg : session)
        (depart arrive : Orbit.t) (lam1 rf : float)
        (dx : float * float) (s s' : PatchedConic.t) :
  stores_speed orb ->
  PatchedConic.init lm depart arrive lam1 rf = Ok s ->
  init_patched_conic lm orb dbg (OfConic s) dx = Ok s' ->
  PatchedConic.x s'
  = (fst (PatchedConic.x s) + fst dx, snd (PatchedConic.x s) + snd dx).
Proof.
  intros Hstore Hs Hs'.
  destruct (init_inv lm _ _ _ _ _ Hs) as (_ & Hg & _).
  destruct (init_patched_conic_built lm orb _ _ _ _ Hs') as (_ & _ & _ & Hg').
  pose proof (init_patched_conic_args lm orb _ _ _ _ Hs')
    as (Hdep & _ & Hl & _).
  rewrite Hg, Hg'.
  change (PatchedConic.x (PatchedConic.compute_gradients lm s'))
    with (PatchedConic.lam1 s', Orbit.v (PatchedConic.depart s')).
  change (PatchedConic.x (PatchedConic.compute_gradients lm s))
    with (PatchedConic.lam1 s, Orbit.v (PatchedConic.depart s)).
  rewrite Hdep, Hl. unfold factory_depart, factory_lam1.
  cbn [solution_tuple fst snd].
  rewrite (Hstore PatchedConic.mu_earth
             (Orbit.r (PatchedConic.depart s))
             (Orbit.v (PatchedConic.depart s) + snd dx)
             (Orbit.phi (PatchedConic.depart s))).
  reflexivity.
Qed.

(** A state the constructor built directly, from the departure orbit of
    the script and its state at a radius of 300000 km, perturbed by 1 m/s
    and a milliradian. *)
Lemma X10_witness :
  exists s s' : PatchedConic.t,
    PatchedConic.init Scenario.lm Scenario.depart Scenario.arrive_other
                      (RefLibm.pi / 2) 1937000 = Ok s
    /\ init_patched_conic Scenario.lm Scenario.orb Quit (OfConic s) (0.001, 1)
       = Ok s'
    /\ PatchedConic.x s'
       = (fst (PatchedConic.x s) + 0.001, snd (PatchedConic.x s) + 1).
Proof.
  destruct (PatchedConic.init Scenario.lm Scenario.depart
              Scenario.arrive_other (RefLibm.pi / 2) 1937000)
    as [s|e] eqn:E; [|exfalso; vm_compute in E; discriminate E].
  destruct (init_patched_conic Scenario.lm Scenario.orb Quit (OfConic s)
                               (0.001, 1)) as [s'|e'] eqn:E'.
  - exists s, s'. split; [reflexivity|]. split; [exact E'|].
    apply (X10_factory_moves_design_vector Scenario.lm Scenario.orb Quit
             Scenario.depart Scenario.arrive_other (RefLibm.pi / 2) 1937000
             (0.001, 1) s s').
    + intros mu r v phi. reflexivity.
    + exact E.
    + exact E'.
  - exfalso. vm_compute in E. inversion E as [Hs]. rewrite <- Hs in E'.
    vm_compute in E'. discriminate E'.
Defined.

(** X11: what the clamp before each of the two arcsines of the constructor
    comes to.  For an argument inside [[-1, 1]] the angle is the arcsine of
    the argument itself; for an argument above 1 it is the arcsine of 1, for
    one below -1 the arcsine of -1; a NaN argument is passed on to the
    arcsine.  This holds of the phase angle [gam1] and of the miss angle
    [eps]. *)
Theorem X11_clamp_acts_only_outside_range
        (lm : Np.Libm) (depart arrive : Orbit.t) (lam1 rf : float)
        (s : PatchedConic.t) :
  PatchedConic.init lm depart arrive lam1 rf = Ok s ->
  clamp_cases lm (PatchedConic.sg1_raw lm arrive lam1) (PatchedConic.gam1 s)
  /\ clamp_cases lm
       (PatchedConic.seps2_raw lm arrive lam1 (PatchedConic.gam1 s)
                               (PatchedConic.v s))
       (PatchedConic.eps s).
Proof.
  intros Hs. destruct (init_arcsines lm _ _ _ _ _ Hs) as [H1 H2].
  rewrite H1 at 1. rewrite H2. split; apply clip_cases.
Qed.

(** Both sides of the clamp.  For the intercept state of the script the
    argument of the first arcsine is about 0.17 and [gam1] is its arcsine;
    for the arrival state at 60000 km it is about 1.1 and [gam1] is the
    arcsine of 1. *)
Lemma X11_witness :
  (exists s : PatchedConic.t,
      PatchedConic.init Scenario.lm Scenario.depart Scenario.intercept
                        (RefLibm.pi / 2) 1937000 = Ok s
      /\ PatchedConic.gam1 s
         = Np.arcsin Scenario.lm
             (PatchedConic.sg1_raw Scenario.lm Scenario.intercept
                                   (RefLibm.pi / 2)))
  /\ (exists s : PatchedConic.t,
         PatchedConic.init Scenario.lm Scenario.depart Scenario.arrive_near
                           (RefLibm.pi / 2) 1937000 = Ok s
         /\ PatchedConic.gam1 s = Np.arcsin Scenario.lm 1).
Proof.
  split.
  - destruct (PatchedConic.init Scenario.lm Scenario.depart
                Scenario.intercept (RefLibm.pi / 2) 1937000)
      as [s|e] eqn:E; [|exfalso; vm_compute in E; discriminate E].
    exists s. split; [reflexivity|].
    destruct (X11_clamp_acts_only_outside_range Scenario.lm Scenario.depart
                Scenario.intercept (RefLibm.pi / 2) 1937000 s E)
      as [(Hin & _) _].
    apply Hin. split; vm_compute; reflexivity.
  - destruct (PatchedConic.init Scenario.lm Scenario.depart
                Scenario.arrive_near (RefLibm.pi / 2) 1937000)
      as [s|e] eqn:E; [|exfalso; vm_compute in E; discriminate E].
    exists s. split; [reflexivity|].
    destruct (X11_clamp_acts_only_outside_range Scenario.lm Scenario.depart
                Scenario.arrive_near (RefLibm.pi / 2) 1937000 s E)
      as [(_ & Habove & _) _].
    apply Habove. vm_compute. reflexivity.
Defined.

(** X12: at a step of length zero the objective of the line search is the
    augmented objective of the state itself.  For a state [s] the factory
    built (the [Orbit] constructor keeping the radius, speed and flight-path
    angle it is given; neither the departure speed nor the phase angle of
    [s] the negative zero) and any finite direction [p],
    [Psi(0.0, s, p)] returns [s.F]. *)
Theorem X12_Psi_at_zero_step
        (lm : Np.Libm) (orb : Orbit.Ops) (dbg0 dbg : session)
        (solution_x : solution) (dx : float * float) (s : PatchedConic.t)
        (p : float * float) :
  stores_arguments orb ->
  init_patched_conic lm orb dbg0 solution_x dx = Ok s ->
  Orbit.v (PatchedConic.depart s) <> (-0) ->
  PatchedConic.lam1 s <> (-0) ->
  is_finite (fst p) = true ->
  is_finite (snd p) = true ->
  Psi lm orb dbg 0 s p = Ok (PatchedConic.F s).
Proof.
  intros Hstore Hs Hv Hlam Hp1 Hp2. unfold Psi.
  rewrite (factory_zero_step lm orb dbg0 dbg solution_x dx s _ _ Hstore Hs
             Hv Hlam
             (FloatOrder.opp_mul_zero _ Hp1)
             (FloatOrder.opp_mul_zero _ Hp2)).
  destruct (init_patched_conic_built lm orb _ _ _ _ Hs) as (_ & _ & _ & Hg).
  rewrite Hg. reflexivity.
Qed.

(** The state of the script, with its own augmented gradient as the
    direction, as [optimize_deltav] would take it. *)
Lemma X12_witness :
  exists s : PatchedConic.t,
    init_patched_conic Scenario.lm Scenario.orb Quit Scenario.base dx_zero =
        Ok s
    /\ Psi Scenario.lm Scenario.orb Quit 0 s (PatchedConic.dF_dx s)
       = Ok (PatchedConic.F s).
Proof.
  destruct (init_patched_conic Scenario.lm Scenario.orb Quit Scenario.base
      dx_zero)
    as [s|e] eqn:E; [|exfalso; vm_compute in E; discriminate E].
  exists s. split; [reflexivity|].
  apply (X12_Psi_at_zero_step Scenario.lm Scenario.orb Quit Quit
           Scenario.base dx_zero s (PatchedConic.dF_dx s)).
  - intros mu r v phi. repeat split; reflexivity.
  - exact E.
  - vm_compute in E. inversion E. vm_compute. discriminate.
  - vm_compute in E. inversion E. vm_compute. discriminate.
  - vm_compute in E. inversion E. vm_compute. reflexivity.
  - vm_compute in E. inversion E. vm_compute. reflexivity.
Defined.

(** X13: for a state the factory built, the [Orbit] constructor keeping the
    gravitational parameter it is given, the departure burn is measured
    against the circular speed about the Earth; when moreover the perilune
    speed exceeds the circular speed at the final radius, the cost is the
    sum of two magnitudes,
    [f = |v0 - sqrt (mu_earth / r0)| + |vpl - vf|], with [g = rf - rpl]. *)
Theorem X13_cost_of_factory_state
        (lm : Np.Libm) (orb : Orbit.Ops) (dbg : session)
        (solution_x : solution) (dx : float * float) (s : PatchedConic.t) :
  stores_mu orb ->
  init_patched_conic lm orb dbg solution_x dx = Ok s ->
  (0 <? PatchedConic.vpl s - PatchedConic.vf s) = true ->
  cost_of_magnitudes s.
Proof.
  intros Hmu Hs Hpos.
  pose proof (init_patched_conic_args lm orb _ _ _ _ Hs) as (Hdep & _).
  destruct (init_patched_conic_built lm orb _ _ _ _ Hs) as (_ & _ & _ & Hg).
  destruct (compute_gradients_cost lm s Hg) as [Hf Hc].
  unfold cost_of_magnitudes; cbv zeta. split; [|exact Hc].
  rewrite Hf, (FloatFacts.abs_pos _ Hpos).
  assert (Hm : Orbit.mu (PatchedConic.depart s) = PatchedConic.mu_earth).
  { rewrite Hdep. unfold factory_depart.
    destruct (solution_tuple solution_x) as [[[[r0 v0] phi0] l0] rf0].
    apply Hmu. }
  now rewrite Hm.
Qed.

Lemma X13_witness :
  exists s : PatchedConic.t,
    init_patched_conic Scenario.lm Scenario.orb Quit Scenario.base dx_zero =
        Ok s
    /\ cost_of_magnitudes s.
Proof.
  destruct (init_patched_conic Scenario.lm Scenario.orb Quit Scenario.base
      dx_zero)
    as [s|e] eqn:E; [|exfalso; vm_compute in E; discriminate E].
  exists s. split; [reflexivity|].
  apply (X13_cost_of_factory_state Scenario.lm Scenario.orb Quit
           Scenario.base dx_zero s).
  - intros mu r v phi. reflexivity.
  - exact E.
  - vm_compute in E. inversion E. vm_compute. reflexivity.
Defined.


(** ** Signs *)

Module FloatSign.

Lemma binary_round_aux_nonneg (m e : Z) (l : location) :
  SFnonneg (binary_round_aux prec emax false m e l).
Proof.
  unfold binary_round_aux.
  destruct (shr_fexp prec emax m e l) as [mrs e'].
  destruct (shr_fexp prec emax _ e' loc_Exact) as [mrs' e''].
  destruct (shr_m mrs'); cbn; auto.
  destruct (Z.leb _ _); cbn; auto.
Qed.

Lemma SFmul_self_nonneg (x : spec_float) : SFnonneg (SFmul prec emax x x).
Proof.
  destruct x as [s|s| |s m e]; cbn; auto.
  - now destruct s.
  - rewrite xorb_nilpotent. apply binary_round_aux_nonneg.
Qed.

Lemma SFadd_nonneg (x y : spec_float) :
  SFnonneg x -> SFnonneg y -> SFnonneg (SFadd prec emax x y).
Proof.
  destruct x as [sx|sx| |sx mx ex], y as [sy|sy| |sy my ey]; cbn; auto;
    try (destruct sx, sy; cbn; tauto); try (destruct sx; cbn; tauto);
    try (destruct sy; cbn; tauto).
  destruct sx, sy; cbn; try tauto. intros _ _.
  unfold binary_round.
  destruct (shl_align _ _ _) as [mz ez]. apply binary_round_aux_nonneg.
Qed.

Lemma SFsqrt_nonneg (x : spec_float) : SFnonneg (SFsqrt prec emax x).
Proof.
  destruct x as [s|s| |s m e]; cbn; auto.
  - now destruct s.
  - destruct s; cbn; auto.
    destruct (SFsqrt_core_binary prec emax (Z.pos m) e) as [[mz ez] lz].
    apply binary_round_aux_nonneg.
Qed.

Lemma nonneg_not_ltb_zero (x : float) :
  SFnonneg (Prim2SF x) -> (x <? 0) = false.
Proof.
  rewrite ltb_spec. change (Prim2SF 0) with (S754_zero false).
  unfold SFltb. destruct (Prim2SF x) as [s|s| |s m e]; cbn; auto;
    destruct s; cbn; tauto.
Qed.

(** A sum of two squares, a square root and a magnitude are never below
    zero. *)
Lemma sum_of_squares_not_negative (a b : float) :
  (a * a + b * b <? 0) = false.
Proof.
  apply nonneg_not_ltb_zero. rewrite add_spec, !mul_spec.
  apply SFadd_nonneg; apply SFmul_self_nonneg.
Qed.

Lemma sqrt_not_negative (a : float) : (sqrt a <? 0) = false.
Proof.
  apply nonneg_not_ltb_zero. rewrite sqrt_spec. apply SFsqrt_nonneg.
Qed.

Lemma abs_not_negative (a : float) : (abs a <? 0) = false.
Proof.
  apply nonneg_not_ltb_zero. rewrite abs_spec.
  destruct (Prim2SF a) as [s|s| |s m e]; cbn; auto.
Qed.

End FloatSign.

(** X14: in every constructed [PatchedConic] the quantities that are
    magnitudes are never negative, whatever the orbits and whatever the
    elementary functions return: the selenocentric speed [v], the circular
    speed [vf], the eccentricity [ef], the perilune speed [vpl], the
    departure burn [deltav1] and the optimality residual [Q_opt] each fail
    the test [< 0] (each is a number at or above zero, or NaN). *)
Theorem X14_magnitudes_never_negative
        (lm : Np.Libm) (depart arrive : Orbit.t) (lam1 rf : float)
        (s : PatchedConic.t) :
  PatchedConic.init lm depart arrive lam1 rf = Ok s ->
  magnitudes_not_negative s.
Proof.
  intros Hs. apply init_inv in Hs as (Hg & Hgrad & Ha).
  unfold PatchedConic.init_geometry in Hg. rewrite Ha in Hg.
  inversion Hg as [Hgeo]. clear Hg.
  unfold magnitudes_not_negative. rewrite Hgrad, <- Hgeo.
  repeat split;
    first [ apply FloatSign.sqrt_not_negative
          | apply FloatSign.abs_not_negative
          | apply FloatSign.sum_of_squares_not_negative ].
Qed.

Lemma X14_witness :
  exists s : PatchedConic.t,
    PatchedConic.init Scenario.lm Scenario.depart Scenario.intercept
                      (RefLibm.pi / 2) 1937000 = Ok s
    /\ magnitudes_not_negative s.
Proof.
  destruct (PatchedConic.init Scenario.lm Scenario.depart Scenario.intercept
                              (RefLibm.pi / 2) 1937000) as [s|e] eqn:E.
  - exists s. split; [reflexivity|].
    exact (X14_magnitudes_never_negative Scenario.lm Scenario.depart
             Scenario.intercept (RefLibm.pi / 2) 1937000 s E).
  - exfalso. vm_compute in E. discriminate E.
Defined.

(** A float whose magnitude is strictly below another float is finite. *)
Lemma abs_below_is_finite (y z : float) :
  (abs y <? z) = true -> is_finite y = true.
Proof.
  intros H. unfold is_finite, is_infinity.
  assert (Hn : is_nan y = false).
  { destruct (is_nan y) eqn:E; [|reflexivity].
    pose proof (FloatOrder.ltb_not_nan_l _ _ H) as Ha.
    rewrite (FloatOrder.abs_nan _ E) in Ha. discriminate Ha. }
  rewrite Hn. cbn [orb].
  rewrite FloatAxioms.eqb_spec, abs_spec.
  rewrite ltb_spec, abs_spec in H.
  change (Prim2SF infinity) with (S754_infinity false).
  unfold SFltb in H. unfold SFeqb.
  destruct (Prim2SF y) as [s|s| |s m e]; cbn in *; try reflexivity.
  destruct (Prim2SF z) as [sz|sz| |sz mz ez]; cbn in H; try discriminate H;
    destruct sz; discriminate H.
Qed.

Lemma chain_finite (lm : Np.Libm) (orb : Orbit.Ops) (self : SGRA.t)
      (x : PatchedConic.t) (ys : list PatchedConic.t) :
  restoration_chain lm orb self x ys ->
  Forall (fun y : PatchedConic.t => is_finite (PatchedConic.g y) = true) ys.
Proof.
  revert x. induction ys as [|y ys IH]; intros x Hc; [constructor|].
  destruct Hc as [[Hlt _] Hrest].
  constructor; [|exact (IH y Hrest)].
  exact (abs_below_is_finite _ _ Hlt).
Qed.

(** X15: every state [optimize_v0] yields has a finite constraint: a trial
    whose constraint is NaN or infinite is never accepted, whatever the
    constraint of the state it is compared with. *)
Theorem X15_yields_have_finite_constraint
        (lm : Np.Libm) (orb : Orbit.Ops) (pdb : nat -> session)
        (self : SGRA.t) (solution_x : PatchedConic.t) (max_iterations : Z) :
  Forall (fun y : PatchedConic.t => is_finite (PatchedConic.g y) = true)
         (SGRA.yields
            (fst (SGRA.optimize_v0 lm orb pdb self solution_x max_iterations))).
Proof.
  unfold SGRA.optimize_v0.
  apply (chain_finite lm orb self solution_x).
  exact (loop_chain lm orb pdb self (Z.to_nat max_iterations) 0 0
           solution_x).
Qed.
